(** * gemini-proxy: the generation gateway, embedded and verified

    The repository holds two serverless handlers that forward a
    generation request to the Gemini API:

    - [api/generate.js], the open variant;
    - a second handler that first checks a Firebase ID token, the
      authenticated variant.

    Both are embedded below as functions in a small state-and-exception
    monad: the state is the chronological list of observable effects
    (console output, token verification, upstream calls, timers), and the
    outside world (environment variables, the identity service, the
    upstream API) is an explicit [Env] record of oracles. *)

From Stdlib Require Import ZArith Lia.
From stdpp Require Import base strings list gmap.

Set Warnings "-register-all".

Local Open Scope string_scope.
Local Open Scope list_scope.
Local Open Scope Z_scope.

(** ** JavaScript values *)

(** The values a parsed JSON body, a decoded token or an object literal of
    the handlers can hold. Numbers are kept as integers: the handlers only
    ever test a number for truthiness. An object is the list of its own
    properties, the first binding of a key being its value. *)
Inductive JValue : Type :=
| JUndefined
| JNull
| JBool (b : bool)
| JNum (n : Z)
| JStr (s : string)
| JArr (items : list JValue)
| JObj (fields : list (string * JValue)).

(** [!!v] of JavaScript. *)
Definition truthy (v : JValue) : bool :=
  match v with
  | JUndefined | JNull => false
  | JBool b => b
  | JNum n => negb (n =? 0)
  | JStr s => negb (String.eqb s "")
  | JArr _ | JObj _ => true
  end.

Definition nullish (v : JValue) : bool :=
  match v with
  | JUndefined | JNull => true
  | _ => false
  end.

(** [Array.isArray(v)]. *)
Definition isArray (v : JValue) : bool :=
  match v with
  | JArr _ => true
  | _ => false
  end.

Fixpoint lookup_field (k : string) (fields : list (string * JValue)) : JValue :=
  match fields with
  | [] => JUndefined
  | (k', v) :: rest => if String.eqb k k' then v else lookup_field k rest
  end.

(** [v.k] on a value that is neither [null] nor [undefined], for the
    property names the handlers use ([parts], [systemInstruction],
    [candidates], [content], [text], [uid]): none of them is an index or a
    name found on the prototype of a primitive or of an array, so only an
    object can carry them. *)
Definition prop (v : JValue) (k : string) : JValue :=
  match v with
  | JObj fields => lookup_field k fields
  | _ => JUndefined
  end.

(** [v[0]] on a value that is neither [null] nor [undefined]: the first
    element of an array, the first character of a string, the property
    ["0"] of an object. *)
Definition index0 (v : JValue) : JValue :=
  match v with
  | JArr items => match items with
                  | [] => JUndefined
                  | x :: _ => x
                  end
  | JStr s => match s with
              | EmptyString => JUndefined
              | String c _ => JStr (String c EmptyString)
              end
  | JObj fields => lookup_field "0" fields
  | _ => JUndefined
  end.

(** [v?.k] and [v?.[0]]: [undefined] as soon as [v] is [null] or
    [undefined]. *)
Definition opt_prop (v : JValue) (k : string) : JValue :=
  if nullish v then JUndefined else prop v k.

Definition opt_index0 (v : JValue) : JValue :=
  if nullish v then JUndefined else index0 v.

(** ** Exceptions, effects and the handler monad *)

(** A thrown JavaScript error with its [code] and [message] properties. *)
Record Exn : Type := mkExn { exn_code : JValue; exn_message : string }.

Definition TypeError (msg : string) : Exn := mkExn JUndefined msg.

(** The outbound call [fetch(url, {method, headers, body})]. [f_body] is
    the value handed to [JSON.stringify]. *)
Record FetchRequest : Type := mkFetchRequest {
  f_url : string;
  f_method : string;
  f_headers : list (string * string);
  f_body : JValue
}.

(** What the upstream sent back: the HTTP status and the body as
    [response.json()] parses it ([None] when it is not JSON and the parse
    rejects). *)
Record FetchResponse : Type := mkFetchResponse {
  f_status : Z;
  f_parsed : option JValue
}.

(** [response.ok]: the status is in the range 200-299. *)
Definition ok (r : FetchResponse) : bool :=
  (200 <=? f_status r) && (f_status r <=? 299).

Inductive Outcome (A : Type) : Type :=
| Val (a : A)
| Throw (e : Exn).
Arguments Val {A} a.
Arguments Throw {A} e.

(** One argument of a [console.error] call. *)
Inductive LogArg : Type :=
| LVal (v : JValue)
| LExn (e : Exn).

(** The observable effects of one request, in the order they happen.
    [ReadBody] marks the evaluation of [request.body], where payload
    processing starts. *)
Inductive Event : Type :=
| ConsoleError (args : list LogArg)
| VerifyIdToken (idToken : JValue) (result : Outcome JValue)
| ReadBody
| Fetch (req : FetchRequest)
| SetTimeout (ms : Z).

(** The process configuration and the services the handlers talk to.
    [apps_before_load] is [admin.apps.length] when the authenticated module
    is loaded and [initializeApp key] tells whether parsing the service
    account key and initialising the SDK with it succeed; [upstream n req]
    answers the [n]-th outbound call of the request
    (counting from zero); [Throw] is a connection error. *)
Record Env : Type := mkEnv {
  GEMINI_API_KEY : option string;
  FIREBASE_SERVICE_ACCOUNT_KEY : option string;
  apps_before_load : nat;
  initializeApp : string -> bool;
  verifyIdToken : JValue -> Outcome JValue;
  upstream : nat -> FetchRequest -> Outcome FetchResponse
}.

Definition World : Type := list Event.

Definition M (A : Type) : Type := World -> Outcome A * World.

#[global] Instance M_ret : MRet M := fun A a w => (Val a, w).

#[global] Instance M_bind : MBind M := fun A B f m w =>
  match m w with
  | (Val a, w') => f a w'
  | (Throw e, w') => (Throw e, w')
  end.

Definition throw {A : Type} (e : Exn) : M A := fun w => (Throw e, w).

(** [try { m } catch (e) { h e }]. *)
Definition try_catch {A : Type} (m : M A) (h : Exn -> M A) : M A := fun w =>
  match m w with
  | (Val a, w') => (Val a, w')
  | (Throw e, w') => h e w'
  end.

Definition emit (ev : Event) : M unit := fun w => (Val tt, w ++ [ev]).

Definition console_error (args : list LogArg) : M unit :=
  emit (ConsoleError args).

(** Number of outbound calls made so far. *)
Fixpoint count_fetch (w : World) : nat :=
  match w with
  | [] => 0%nat
  | Fetch _ :: rest => S (count_fetch rest)
  | _ :: rest => count_fetch rest
  end.

(** [await fetch(...)]: the call is made, then it resolves or rejects. *)
Definition fetch (env : Env) (req : FetchRequest) : M FetchResponse := fun w =>
  (upstream env (count_fetch w) req, w ++ [Fetch req]).

(** [await new Promise(resolve => setTimeout(resolve, ms))]. *)
Definition sleep (ms : Z) : M unit := emit (SetTimeout ms).

(** Total time spent waiting on timers. *)
Fixpoint elapsed (w : World) : Z :=
  match w with
  | [] => 0
  | SetTimeout ms :: rest => ms + elapsed rest
  | _ :: rest => elapsed rest
  end.

(** ** The HTTP exchange *)

Record Request : Type := mkRequest {
  method : string;
  headers : gmap string string;
  body : JValue
}.

(** [response.status(code).json(payload)]. *)
Record Response : Type := mkResponse {
  status : Z;
  json : JValue
}.

Definition error_body (msg : string) : JValue := JObj [("error", JStr msg)].

Definition send (code : Z) (payload : JValue) : M Response :=
  mret (mkResponse code payload).

(** ** Shared constants *)

Definition API_URL_BASE : string :=
  "https://generativelanguage.googleapis.com/v1beta/models".
Definition GEMINI_MODEL : string := "gemini-2.5-flash-preview-09-2025".

Definition maxRetries : nat := 3.
Definition delay : Z := 1000.

(** ** Upstream request builder *)

(** The object literal [geminiPayload] of both handlers. *)
Definition geminiPayload (parts systemInstruction : JValue) : JValue :=
  JObj [ ("contents", JArr [ JObj [ ("role", JStr "user"); ("parts", parts) ] ]);
         ("systemInstruction",
           JObj [ ("parts", JArr [ JObj [ ("text", systemInstruction) ] ]) ]) ].

Definition apiUrl (apiKey : string) : string :=
  API_URL_BASE +:+ "/" +:+ GEMINI_MODEL +:+ ":generateContent?key=" +:+ apiKey.

Definition upstream_request (apiKey : string) (payload : JValue) : FetchRequest :=
  mkFetchRequest (apiUrl apiKey) "POST"
    [("Content-Type", "application/json")] payload.

(** ** Resilient caller *)

(** The loop [for (let attempt = 0; attempt < maxRetries; attempt++)]:
    [fuel] is [maxRetries - attempt], the iterations the loop condition
    still allows, and [geminiResponse] the variable the loop assigns. *)
Fixpoint attempts (env : Env) (req : FetchRequest) (fuel attempt : nat)
    (geminiResponse : option FetchResponse) : M (option FetchResponse) :=
  match fuel with
  | O => mret geminiResponse
  | S fuel' =>
      r ← fetch env req;
      if ok r || (attempt =? maxRetries - 1)%nat then mret (Some r)
      else
        _ ← sleep (delay * 2 ^ Z.of_nat attempt);
        attempts env req fuel' (S attempt) (Some r)
  end.

(** [await geminiResponse.json()]; [geminiResponse] is still [undefined]
    when the loop body never ran. *)
Definition response_json (geminiResponse : option FetchResponse) : M JValue :=
  match geminiResponse with
  | None =>
      throw (TypeError "Cannot read properties of undefined (reading 'json')")
  | Some r =>
      match f_parsed r with
      | Some v => mret v
      | None => throw (mkExn JUndefined "Unexpected token in JSON")
      end
  end.

(** ** Response translator *)

(** The value of [candidates?.[0]?.content?.parts?.[0]?.text] below
    [result.candidates]. *)
Definition text_path (result : JValue) : JValue :=
  opt_prop
    (opt_index0
       (opt_prop (opt_prop (opt_index0 (prop result "candidates")) "content")
          "parts"))
    "text".

(** [result.candidates?.[0]?.content?.parts?.[0]?.text]: the first access
    is a plain one and throws on [null] or [undefined]. *)
Definition extract_text (result : JValue) : M JValue :=
  if nullish result
  then throw (TypeError "Cannot read properties of null (reading 'candidates')")
  else mret (text_path result).

(** Lines 58-75 of [api/generate.js], 104-120 of the authenticated
    handler. *)
Definition translate (geminiResponse : option FetchResponse) : M Response :=
  result ← response_json geminiResponse;
  match geminiResponse with
  | None => throw (TypeError "Cannot read properties of undefined (reading 'ok')")
  | Some r =>
      if negb (ok r) then
        _ ← console_error [LVal (JStr "External API Error:"); LVal result];
        send (f_status r)
          (JObj [("error", JStr "AI Service Error"); ("details", result)])
      else
        text ← extract_text result;
        if negb (truthy text) then send 500 (error_body "AI response was empty.")
        else send 200 (JObj [("text", text)])
  end.

(** The [catch (e)] block around the upstream call. *)
Definition on_fetch_error (e : Exn) : M Response :=
  _ ← console_error [LVal (JStr "Proxy fetch error:"); LExn e];
  send 500 (error_body "Internal server error during fetch.").

(** ** Payload processing and the upstream call *)

(** [request.body || {}]. *)
Definition payload_of (b : JValue) : JValue :=
  if truthy b then b else JObj [].

(** [const { parts, systemInstruction } = payload]: destructuring [null]
    or [undefined] throws; any other value yields the two properties,
    [undefined] where there is none. *)
Definition destructure (payload : JValue) : M (JValue * JValue) :=
  if nullish payload
  then throw (TypeError "Cannot destructure property 'parts' of 'payload'.")
  else mret (prop payload "parts", prop payload "systemInstruction").

(** Lines 23-80 of [api/generate.js] and 71-125 of the authenticated
    handler, which are the same code. The destructuring stands before the
    [try] block: an exception there would leave the handler. *)
Definition process_payload (env : Env) (apiKey : string) (request : Request)
    : M Response :=
  _ ← emit ReadBody;
  let payload := payload_of (body request) in
  '(parts, systemInstruction) ← destructure payload;
  if negb (truthy parts) || negb (isArray parts) then
    send 400 (error_body "Missing content parts.")
  else
    let req := upstream_request apiKey (geminiPayload parts systemInstruction) in
    try_catch
      (geminiResponse ← attempts env req maxRetries 0 None;
       translate geminiResponse)
      on_fetch_error.

(** [!s] for an environment variable or a header, which is a string or
    [undefined]. *)
Definition missing (s : option string) : bool :=
  match s with
  | None => true
  | Some v => String.eqb v ""
  end.

(** ** The open handler, [api/generate.js] *)

Module Generate.

Definition handler (env : Env) (request : Request) : M Response :=
  if negb (String.eqb (method request) "POST") then
    send 405 (error_body "Method Not Allowed")
  else
    let apiKey := GEMINI_API_KEY env in
    if missing apiKey then
      _ ← console_error
            [LVal (JStr "GEMINI_API_KEY environment variable is not set.")];
      send 500 (error_body "Server key not configured.")
    else
      process_payload env (default "" apiKey) request.

End Generate.

(** ** The authenticated handler *)

(** [s.split(sep)] for a non-empty separator: [skip] counts the characters
    of a separator just matched that are still to be passed over, [cur] is
    the piece being read. *)
Fixpoint split_go (sep : string) (skip : nat) (cur s : string) : list string :=
  match s with
  | EmptyString => [cur]
  | String c s' =>
      match skip with
      | S k => split_go sep k cur s'
      | O =>
          if String.prefix sep s
          then cur :: split_go sep (String.length sep - 1) "" s'
          else split_go sep 0 (cur +:+ String c "") s'
      end
  end.

Definition split (sep s : string) : list string := split_go sep 0 "" s.

Module Authenticated.

(** [admin.apps.length] once the module is loaded (lines 13-27):
    [apps_before_load] is what it was before, and [initializeApp key] tells
    whether the key parses as JSON and the SDK accepts it. *)
Definition admin_apps_length (env : Env) : nat :=
  if (apps_before_load env =? 0)%nat then
    match FIREBASE_SERVICE_ACCOUNT_KEY env with
    | None => 0%nat
    | Some key =>
        if String.eqb key "" then 0%nat
        else if initializeApp env key then 1%nat else 0%nat
    end
  else apps_before_load env.

(** [authHeader.split('Bearer ')[1]]. *)
Definition idToken_of (authHeader : string) : JValue :=
  match split "Bearer " authHeader !! 1%nat with
  | Some t => JStr t
  | None => JUndefined
  end.

(** [await admin.auth().verifyIdToken(idToken)]. *)
Definition verify (env : Env) (idToken : JValue) : M JValue := fun w =>
  (verifyIdToken env idToken,
   w ++ [VerifyIdToken idToken (verifyIdToken env idToken)]).

(** How the [try] block of the token check ends: with a [return] of the
    handler, or by falling through with [decodedToken] set. *)
Inductive Gate : Type :=
| Returned (r : Response)
| Verified (decodedToken : JValue).

Definition is_null (v : JValue) : bool :=
  match v with
  | JNull => true
  | _ => false
  end.

(** Lines 45-66. *)
Definition token_gate (env : Env) (request : Request) : M Gate :=
  try_catch
    (let authHeader := headers request !! "authorization" in
     match authHeader with
     | None =>
         r ← send 401 (error_body "Authorization header missing or invalid.");
         mret (Returned r)
     | Some h =>
         if String.eqb h "" || negb (String.prefix "Bearer " h) then
           r ← send 401 (error_body "Authorization header missing or invalid.");
           mret (Returned r)
         else
           let idToken := idToken_of h in
           decodedToken ← verify env idToken;
           if negb (truthy decodedToken) || is_null (prop decodedToken "uid")
           then
             r ← send 403 (error_body "Invalid or revoked user token.");
             mret (Returned r)
           else mret (Verified decodedToken)
     end)
    (fun error =>
       _ ← console_error [LVal (JStr "Token verification error:");
                          LVal (exn_code error);
                          LVal (JStr (exn_message error))];
       r ← send 403 (error_body "Access denied: Token verification failed.");
       mret (Returned r)).

Definition handler (env : Env) (request : Request) : M Response :=
  if negb (String.eqb (method request) "POST") then
    send 405 (error_body "Method Not Allowed")
  else if missing (GEMINI_API_KEY env) then
    send 500 (error_body "Server key not configured.")
  else if missing (FIREBASE_SERVICE_ACCOUNT_KEY env)
          || (admin_apps_length env =? 0)%nat then
    send 500 (error_body "Firebase Admin not configured on server.")
  else
    gate ← token_gate env request;
    match gate with
    | Returned r => mret r
    | Verified _ =>
        process_payload env (default "" (GEMINI_API_KEY env)) request
    end.

End Authenticated.

(** ** Both variants at once *)

Inductive Variant : Type :=
| Open
| Secured.

Definition handler_of (v : Variant) : Env -> Request -> M Response :=
  match v with
  | Open => Generate.handler
  | Secured => Authenticated.handler
  end.

(** The server configuration a variant needs is present. *)
Definition configured (v : Variant) (env : Env) : bool :=
  negb (missing (GEMINI_API_KEY env))
  && match v with
     | Open => true
     | Secured =>
         negb (missing (FIREBASE_SERVICE_ACCOUNT_KEY env))
         && negb (Authenticated.admin_apps_length env =? 0)%nat
     end.

(** The token of an [Authorization] header that begins with ['Bearer ']. *)
Definition bearer (request : Request) : option JValue :=
  match headers request !! "authorization" with
  | None => None
  | Some h =>
      if String.eqb h "" || negb (String.prefix "Bearer " h) then None
      else Some (Authenticated.idToken_of h)
  end.

(** Verification returns a token that is truthy and whose [uid] is not
    [null]. *)
Definition accepts (env : Env) (idToken : JValue) : bool :=
  match verifyIdToken env idToken with
  | Val d => truthy d && negb (Authenticated.is_null (prop d "uid"))
  | Throw _ => false
  end.

Definition verified (env : Env) (request : Request) : bool :=
  match bearer request with
  | Some t => accepts env t
  | None => false
  end.

(** A POST request that passes the configuration check and, in the
    authenticated variant, credential verification. *)
Definition admitted (v : Variant) (env : Env) (request : Request) : bool :=
  String.eqb (method request) "POST"
  && configured v env
  && match v with
     | Open => true
     | Secured => verified env request
     end.

(** What an admitted request has left in the trace when payload processing
    starts. *)
Definition gate_trace (v : Variant) (env : Env) (request : Request) : World :=
  match v with
  | Open => []
  | Secured =>
      match bearer request with
      | Some t => [VerifyIdToken t (verifyIdToken env t)]
      | None => []
      end
  end.

(** The call payload processing makes for an inbound request, under the
    key [apiKey]. *)
Definition outbound (apiKey : string) (request : Request) : FetchRequest :=
  upstream_request apiKey
    (geminiPayload (prop (body request) "parts")
       (prop (body request) "systemInstruction")).

(** The request the handlers send upstream for a given inbound request. *)
Definition request_for (env : Env) (request : Request) : FetchRequest :=
  outbound (default "" (GEMINI_API_KEY env)) request.

(** The upstream answers the calls [n], [n+1], ... with the responses
    [rs]. *)
Fixpoint answered (env : Env) (req : FetchRequest) (n : nat)
    (rs : list FetchResponse) : Prop :=
  match rs with
  | [] => True
  | r :: rs' => upstream env n req = Val r /\ answered env req (S n) rs'
  end.

(** The effects of [n] failed attempts in a row, the first being attempt
    number [attempt]: each call is followed by its backoff wait. *)
Fixpoint retries (req : FetchRequest) (attempt n : nat) : World :=
  match n with
  | O => []
  | S n' =>
      Fetch req :: SetTimeout (delay * 2 ^ Z.of_nat attempt)
        :: retries req (S attempt) n'
  end.

(** ** Kinds of events *)

Definition is_log (ev : Event) : Prop := exists args, ev = ConsoleError args.

(** What the upstream call of [req] can leave in the trace. *)
Definition is_call (req : FetchRequest) (ev : Event) : Prop :=
  ev = Fetch req \/ (exists ms, ev = SetTimeout ms) \/ is_log ev.

(** An event of the gates: console output, or a verification that did not
    let the request through. *)
Definition is_gate_event (env : Env) (ev : Event) : Prop :=
  is_log ev
  \/ exists t,
       ev = VerifyIdToken t (verifyIdToken env t) /\ accepts env t = false.

(** The events of payload processing: reading the body and calling the
    upstream. *)
Definition is_payload_event (ev : Event) : Prop :=
  ev = ReadBody \/ exists req, ev = Fetch req.

(** ** The text path, segment by segment *)

Definition present (v : JValue) : bool :=
  match v with
  | JUndefined => false
  | _ => true
  end.

(** Every segment of [candidates[0].content.parts[0].text] is there. *)
Definition path_present (result : JValue) : bool :=
  let candidates := opt_prop result "candidates" in
  let candidate := opt_index0 candidates in
  let content := opt_prop candidate "content" in
  let parts := opt_prop content "parts" in
  let part := opt_index0 parts in
  let text := opt_prop part "text" in
  present candidates && present candidate && present content
  && present parts && present part && present text.

(** ** Notions used to describe the handlers as a whole *)

(** No character of [s] is a space. *)
Fixpoint no_space (s : string) : bool :=
  match s with
  | EmptyString => true
  | String c s' => negb (Ascii.eqb c Ascii.Space) && no_space s'
  end.

(** An action that does not look at the trace it extends, as long as no
    upstream call was made before it: run after [w0], it does what it does
    without [w0] and leaves [w0] in front. *)
Definition framed {A : Type} (m : M A) : Prop :=
  forall w0 w,
    count_fetch w0 = 0%nat ->
    m (w0 ++ w) = ((m w).1, w0 ++ (m w).2).

(** An event that is neither an upstream call nor a wait. *)
Definition is_quiet (ev : Event) : Prop :=
  match ev with
  | Fetch _ | SetTimeout _ => False
  | _ => True
  end.

(** The answers of the gates in front of payload processing. *)
Definition refusals : list Response :=
  [ mkResponse 405 (error_body "Method Not Allowed");
    mkResponse 500 (error_body "Server key not configured.");
    mkResponse 500 (error_body "Firebase Admin not configured on server.");
    mkResponse 401 (error_body "Authorization header missing or invalid.");
    mkResponse 403 (error_body "Invalid or revoked user token.");
    mkResponse 403 (error_body "Access denied: Token verification failed.") ].

(** A response that reports success: status 200 and a truthy text, the one
    found in the body of a 2xx answer of the upstream to [req]. *)
Definition is_success (env : Env) (req : FetchRequest) (resp : Response)
    : Prop :=
  status resp = 200
  /\ exists n r result,
       upstream env n req = Val r
       /\ ok r = true
       /\ f_parsed r = Some result
       /\ truthy (text_path result) = true
       /\ json resp = JObj [("text", text_path result)].

(** A response that reports a failure: a status outside 200-299 and a body
    with an [error] message. *)
Definition is_failure (resp : Response) : Prop :=
  (status resp < 200 \/ 299 < status resp)
  /\ exists msg, prop (json resp) "error" = JStr msg.

(** ** Sample requests and environments *)

Module Sample.

Definition generated (text : JValue) : JValue :=
  JObj [("candidates",
         JArr [JObj [("content",
                      JObj [("parts", JArr [JObj [("text", text)]])])]])].

Definition hello : JValue :=
  JObj [("parts", JArr [JObj [("text", JStr "hello")]]);
        ("systemInstruction", JStr "be terse")].

Definition empty_parts : JValue := JObj [("parts", JArr [])].

Definition post (b : JValue) : Request :=
  mkRequest "POST" {[ "authorization" := "Bearer abc" ]} b.

Definition get : Request := mkRequest "GET" ∅ hello.

Definition user : JValue := JObj [("uid", JStr "u1")].

(** What verification returns for a subject that has been revoked, and
    what it throws for a token that has expired. *)
Definition revoked : JValue := JObj [("uid", JNull)].

(** A decoded token that carries no [uid]. *)
Definition anonymous : JValue := JObj [("aud", JStr "project")].

Definition expired : Exn :=
  mkExn (JStr "auth/id-token-expired") "Firebase ID token has expired.".

Definition busy : FetchResponse := mkFetchResponse 503 (Some (JStr "busy")).

Definition success (text : JValue) : FetchResponse :=
  mkFetchResponse 200 (Some (generated text)).

(** A 502 whose body is an HTML page, not JSON. *)
Definition bad_gateway : FetchResponse := mkFetchResponse 502 None.

Definition gateway_errors : list FetchResponse :=
  [bad_gateway; bad_gateway; bad_gateway].

Definition third_time_lucky : list FetchResponse :=
  [busy; busy; success (JStr "hi")].

Definition always_busy : list FetchResponse := [busy; busy; busy].

(** A configured server whose identity service returns [decoded] and whose
    upstream gives the answers [answers] in turn, then connection
    errors. *)
Definition server (decoded : Outcome JValue)
    (answers : list FetchResponse) : Env :=
  mkEnv (Some "k") (Some "{}") 0 (fun _ => true) (fun _ => decoded)
    (fun n _ => match answers !! n with
                | Some r => Val r
                | None => Throw (mkExn (JStr "ECONNRESET") "fetch failed")
                end).

(** A configured server whose upstream drops the first connection and
    would answer the second call. *)
Definition flaky : Env :=
  mkEnv (Some "k") (Some "{}") 0 (fun _ => true) (fun _ => Val user)
    (fun n _ => match n with
                | O => Throw (mkExn (JStr "ECONNRESET") "fetch failed")
                | S _ => Val (success (JStr "hi"))
                end).

(** A server whose service account key is not valid JSON, so that no SDK
    application is initialised at load time. *)
Definition bad_service_key : Env :=
  mkEnv (Some "k") (Some "{not json") 0 (fun _ => false) (fun _ => Val user)
    (fun _ _ => Val (success (JStr "hi"))).

(** The same server without its API key. *)
Definition unconfigured : Env :=
  mkEnv None (Some "{}") 0 (fun _ => true) (fun _ => Val user)
    (fun _ _ => Val (success (JStr "hi"))).

End Sample.

(** ** Running the monad *)

Lemma bind_run {A B : Type} (m : M A) (f : A -> M B) (w : World) :
  (m ≫= f) w = match m w with
               | (Val a, w') => f a w'
               | (Throw e, w') => (Throw e, w')
               end.
Proof. reflexivity. Qed.

Lemma ret_run {A : Type} (a : A) (w : World) : (mret a : M A) w = (Val a, w).
Proof. reflexivity. Qed.

Ltac run :=
  repeat (progress (rewrite ?bind_run, ?ret_run; cbn [fst snd negb orb andb])).

Lemma count_fetch_app (w1 w2 : World) :
  count_fetch (w1 ++ w2) = (count_fetch w1 + count_fetch w2)%nat.
Proof.
  induction w1 as [|ev w1 IH]; [reflexivity|].
  destruct ev; simpl; rewrite IH; reflexivity.
Qed.

Lemma elapsed_app (w1 w2 : World) :
  elapsed (w1 ++ w2) = elapsed w1 + elapsed w2.
Proof.
  induction w1 as [|ev w1 IH]; [reflexivity|].
  destruct ev; simpl; rewrite IH; lia.
Qed.

Lemma count_fetch_retries (req : FetchRequest) (n attempt : nat) :
  count_fetch (retries req attempt n) = n.
Proof.
  revert attempt; induction n as [|n IH]; intros attempt; simpl; [|rewrite IH];
    reflexivity.
Qed.

(** The waits of [n] failed attempts add up to the geometric sum. *)
Lemma elapsed_retries (req : FetchRequest) (n attempt : nat) :
  elapsed (retries req attempt n)
  = delay * 2 ^ Z.of_nat attempt * (2 ^ Z.of_nat n - 1).
Proof.
  revert attempt; induction n as [|n IH]; intros attempt.
  - simpl. lia.
  - cbn [retries elapsed]. rewrite IH.
    rewrite !Nat2Z.inj_succ, !Z.pow_succ_r by lia. lia.
Qed.

(** The payload's fields are the body's: a body that is replaced by [{}]
    has none. *)
Lemma payload_prop (b : JValue) (k : string) :
  prop (payload_of b) k = prop b k.
Proof.
  unfold payload_of.
  destruct b as [| |b|n|s| |]; simpl; try reflexivity.
  - destruct b; reflexivity.
  - destruct (negb (n =? 0)); reflexivity.
  - destruct (negb (String.eqb s "")); reflexivity.
Qed.

(** Whatever the body, the payload is neither [null] nor [undefined]. *)
Lemma payload_not_nullish (b : JValue) : nullish (payload_of b) = false.
Proof.
  unfold payload_of.
  destruct b as [| |b|n|s| |]; simpl; try reflexivity.
  - destruct b; reflexivity.
  - destruct (negb (n =? 0)); reflexivity.
  - destruct (negb (String.eqb s "")); reflexivity.
Qed.

(** So destructuring it never throws, and finds the body's own fields. *)
Lemma destructure_payload (b : JValue) (w : World) :
  destructure (payload_of b) w
  = (Val (prop b "parts", prop b "systemInstruction"), w).
Proof.
  unfold destructure. rewrite payload_not_nullish, !payload_prop. reflexivity.
Qed.

(** Destructuring [null] or [undefined] itself throws. *)
Lemma destructure_nullish (b : JValue) (w : World) :
  nullish b = true -> exists e, destructure b w = (Throw e, w).
Proof. intros Hb. unfold destructure. rewrite Hb. eexists. reflexivity. Qed.

Lemma array_truthy (v : JValue) : isArray v = true -> truthy v = true.
Proof. destruct v; simpl; congruence. Qed.

(** ** The retry loop *)

Section RetryLoop.

Variable env : Env.
Variable req : FetchRequest.

Lemma fetch_run (w : World) :
  fetch env req w = (upstream env (count_fetch w) req, w ++ [Fetch req]).
Proof. reflexivity. Qed.

Lemma count_fetch_after_retry (w : World) (ms : Z) :
  count_fetch ((w ++ [Fetch req]) ++ [SetTimeout ms]) = S (count_fetch w).
Proof. rewrite !count_fetch_app. simpl. lia. Qed.

(** When [fails] are non-2xx answers to non-final attempts and the next
    answer [r] is a 2xx one or the answer to the final attempt, the loop
    ends with [r], having made one call per answer and waited after each
    of [fails]. *)
Lemma attempts_settle (fails : list FetchResponse) (r : FetchResponse) :
  forall (fuel attempt : nat) (last : option FetchResponse) (w : World),
    answered env req (count_fetch w) (fails ++ [r]) ->
    Forall (fun x => ok x = false) fails ->
    (length fails < fuel)%nat ->
    (attempt + length fails <= maxRetries - 1)%nat ->
    ok r = true \/ (attempt + length fails = maxRetries - 1)%nat ->
    attempts env req fuel attempt last w
    = (Val (Some r), w ++ retries req attempt (length fails) ++ [Fetch req]).
Proof.
  induction fails as [|f fs IH];
    intros fuel attempt last w Hans Hfail Hfuel Hle Hend.
  - destruct fuel as [|fuel]; [simpl in Hfuel; lia|].
    destruct Hans as [Hr _]. cbn [attempts].
    rewrite bind_run, fetch_run, Hr.
    assert (ok r || (attempt =? maxRetries - 1)%nat = true) as ->.
    { destruct Hend as [->|Hfin]; [reflexivity|].
      simpl in Hfin. rewrite Nat.add_0_r in Hfin.
      apply orb_true_iff; right. apply Nat.eqb_eq. exact Hfin. }
    reflexivity.
  - destruct fuel as [|fuel]; [simpl in Hfuel; lia|].
    destruct Hans as [Hf Hans]. apply Forall_cons in Hfail as [Hf0 Hfail].
    cbn [length] in *. cbn [attempts].
    rewrite bind_run, fetch_run, Hf, Hf0.
    assert ((attempt =? maxRetries - 1)%nat = false) as ->
      by (apply Nat.eqb_neq; lia).
    cbn [orb]. rewrite bind_run. unfold sleep, emit at 1.
    rewrite (IH fuel (S attempt) (Some f)).
    + cbn [retries]. rewrite <- !app_assoc. reflexivity.
    + rewrite count_fetch_after_retry. exact Hans.
    + exact Hfail.
    + lia.
    + lia.
    + destruct Hend as [?|?]; [left; assumption | right; lia].
Qed.

(** When the call after the non-2xx answers [fails] raises, the loop is
    left at once with that exception. *)
Lemma attempts_throw (fails : list FetchResponse) (e : Exn) :
  forall (fuel attempt : nat) (last : option FetchResponse) (w : World),
    answered env req (count_fetch w) fails ->
    Forall (fun x => ok x = false) fails ->
    upstream env (count_fetch w + length fails) req = Throw e ->
    (length fails < fuel)%nat ->
    (attempt + length fails <= maxRetries - 1)%nat ->
    attempts env req fuel attempt last w
    = (Throw e, w ++ retries req attempt (length fails) ++ [Fetch req]).
Proof.
  induction fails as [|f fs IH];
    intros fuel attempt last w Hans Hfail He Hfuel Hle.
  - destruct fuel as [|fuel]; [simpl in Hfuel; lia|].
    cbn [attempts length] in *. rewrite Nat.add_0_r in He.
    rewrite bind_run, fetch_run, He. reflexivity.
  - destruct fuel as [|fuel]; [simpl in Hfuel; lia|].
    destruct Hans as [Hf Hans]. apply Forall_cons in Hfail as [Hf0 Hfail].
    cbn [length] in *. cbn [attempts].
    rewrite bind_run, fetch_run, Hf, Hf0.
    assert ((attempt =? maxRetries - 1)%nat = false) as ->
      by (apply Nat.eqb_neq; lia).
    cbn [orb]. rewrite bind_run. unfold sleep, emit at 1.
    rewrite (IH fuel (S attempt) (Some f)).
    + cbn [retries]. rewrite <- !app_assoc. reflexivity.
    + rewrite count_fetch_after_retry. exact Hans.
    + exact Hfail.
    + rewrite count_fetch_after_retry.
      replace (S (count_fetch w) + length fs)%nat
        with (count_fetch w + S (length fs))%nat by lia.
      exact He.
    + lia.
    + lia.
Qed.

(** Whatever the upstream does, the loop only adds calls of [req] and
    timers to the trace, and no more calls than it has iterations. *)
Lemma attempts_trace :
  forall (fuel attempt : nat) (last : option FetchResponse) (w : World),
    exists t,
      (attempts env req fuel attempt last w).2 = w ++ t
      /\ Forall (fun ev => ev = Fetch req \/ exists ms, ev = SetTimeout ms) t
      /\ (count_fetch t <= fuel)%nat.
Proof.
  induction fuel as [|fuel IH]; intros attempt last w.
  - exists []. simpl. rewrite app_nil_r. repeat split; [constructor | lia].
  - cbn [attempts]. rewrite bind_run, fetch_run.
    destruct (upstream env (count_fetch w) req) as [r|e].
    + destruct (ok r || (attempt =? maxRetries - 1)%nat).
      * exists [Fetch req]. simpl. repeat split; [|lia].
        constructor; [left; reflexivity | constructor].
      * rewrite bind_run. unfold sleep, emit at 1.
        destruct (IH (S attempt) (Some r)
                    ((w ++ [Fetch req])
                       ++ [SetTimeout (delay * 2 ^ Z.of_nat attempt)]))
          as (t & Ht & Hall & Hcount).
        exists (Fetch req :: SetTimeout (delay * 2 ^ Z.of_nat attempt) :: t).
        rewrite Ht, <- !app_assoc. simpl. repeat split; [|lia].
        constructor; [left; reflexivity|].
        constructor; [right; eexists; reflexivity | exact Hall].
    + exists [Fetch req]. simpl. repeat split; [|lia].
      constructor; [left; reflexivity | constructor].
Qed.

End RetryLoop.

(** ** The response translator inside its [try] block *)

Lemma count_fetch_logs (t : World) : Forall is_log t -> count_fetch t = 0%nat.
Proof.
  induction 1 as [|ev t [args ->] _ IH]; [reflexivity | exact IH].
Qed.

Lemma elapsed_logs (t : World) : Forall is_log t -> elapsed t = 0.
Proof.
  induction 1 as [|ev t [args ->] _ IH]; [reflexivity | exact IH].
Qed.

Ltac unfold_translate :=
  unfold try_catch, translate, response_json, extract_text, on_fetch_error,
    console_error, emit, send, throw;
  run.

Lemma translate_non2xx (r : FetchResponse) (details : JValue) (w : World) :
  ok r = false ->
  f_parsed r = Some details ->
  try_catch (translate (Some r)) on_fetch_error w
  = (Val (mkResponse (f_status r)
            (JObj [("error", JStr "AI Service Error"); ("details", details)])),
     w ++ [ConsoleError [LVal (JStr "External API Error:"); LVal details]]).
Proof.
  intros Hok Hp. unfold_translate. rewrite Hp. run. rewrite Hok. reflexivity.
Qed.

Lemma translate_2xx (r : FetchResponse) (result : JValue) (w : World) :
  ok r = true ->
  f_parsed r = Some result ->
  nullish result = false ->
  try_catch (translate (Some r)) on_fetch_error w
  = (Val (if truthy (text_path result)
          then mkResponse 200 (JObj [("text", text_path result)])
          else mkResponse 500 (error_body "AI response was empty.")),
     w).
Proof.
  intros Hok Hp Hn. unfold_translate. rewrite Hp. run. rewrite Hok, Hn. run.
  destruct (truthy (text_path result)); run; reflexivity.
Qed.

Lemma translate_2xx_null (r : FetchResponse) (result : JValue) (w : World) :
  ok r = true ->
  f_parsed r = Some result ->
  nullish result = true ->
  exists e,
    try_catch (translate (Some r)) on_fetch_error w
    = (Val (mkResponse 500 (error_body "Internal server error during fetch.")),
       w ++ [ConsoleError [LVal (JStr "Proxy fetch error:"); LExn e]]).
Proof.
  intros Hok Hp Hn. eexists. unfold_translate. rewrite Hp. run.
  rewrite Hok, Hn. run. reflexivity.
Qed.

Lemma translate_unparsed (r : FetchResponse) (w : World) :
  f_parsed r = None ->
  exists e,
    try_catch (translate (Some r)) on_fetch_error w
    = (Val (mkResponse 500 (error_body "Internal server error during fetch.")),
       w ++ [ConsoleError [LVal (JStr "Proxy fetch error:"); LExn e]]).
Proof. intros Hp. eexists. unfold_translate. rewrite Hp. reflexivity. Qed.

(** The translator always answers, and only ever writes to the console. *)
Lemma translate_answers (g : option FetchResponse) (w : World) :
  exists resp t,
    try_catch (translate g) on_fetch_error w = (Val resp, w ++ t)
    /\ Forall is_log t.
Proof.
  destruct g as [r|].
  - destruct (f_parsed r) as [result|] eqn:Hp.
    + destruct (ok r) eqn:Hok.
      * destruct (nullish result) eqn:Hn.
        -- destruct (translate_2xx_null r result w Hok Hp Hn) as [e ->].
           do 2 eexists. split; [reflexivity|].
           constructor; [eexists; reflexivity | constructor].
        -- rewrite (translate_2xx r result w Hok Hp Hn).
           do 2 eexists. rewrite app_nil_r. split; [reflexivity | constructor].
      * rewrite (translate_non2xx r result w Hok Hp).
        do 2 eexists. split; [reflexivity|].
        constructor; [eexists; reflexivity | constructor].
    + destruct (translate_unparsed r w Hp) as [e ->].
      do 2 eexists. split; [reflexivity|].
      constructor; [eexists; reflexivity | constructor].
  - unfold_translate. do 2 eexists. split; [reflexivity|].
    constructor; [eexists; reflexivity | constructor].
Qed.

Lemma on_fetch_error_run (e : Exn) (w : World) :
  on_fetch_error e w
  = (Val (mkResponse 500 (error_body "Internal server error during fetch.")),
     w ++ [ConsoleError [LVal (JStr "Proxy fetch error:"); LExn e]]).
Proof. reflexivity. Qed.

(** ** Payload processing *)

Section ProcessPayload.

Variable env : Env.
Variable apiKey : string.
Variable request : Request.

Lemma process_payload_valid (w : World) :
  isArray (prop (body request) "parts") = true ->
  process_payload env apiKey request w
  = try_catch
      (attempts env (outbound apiKey request) maxRetries 0 None ≫= translate)
      on_fetch_error (w ++ [ReadBody]).
Proof.
  intros Harr. unfold process_payload. rewrite bind_run. unfold emit at 1.
  cbv zeta. rewrite bind_run, destructure_payload.
  rewrite Harr, (array_truthy _ Harr). reflexivity.
Qed.

Lemma process_payload_reject (w : World) :
  isArray (prop (body request) "parts") = false ->
  process_payload env apiKey request w
  = (Val (mkResponse 400 (error_body "Missing content parts.")),
     w ++ [ReadBody]).
Proof.
  intros Harr. unfold process_payload. rewrite bind_run. unfold emit at 1.
  cbv zeta. rewrite bind_run, destructure_payload.
  rewrite Harr, orb_true_r. reflexivity.
Qed.

Lemma process_payload_settle (fails : list FetchResponse) (r : FetchResponse)
    (w : World) :
  isArray (prop (body request) "parts") = true ->
  answered env (outbound apiKey request) (count_fetch w) (fails ++ [r]) ->
  Forall (fun x => ok x = false) fails ->
  (length fails < 3)%nat ->
  ok r = true \/ length fails = 2%nat ->
  process_payload env apiKey request w
  = try_catch (translate (Some r)) on_fetch_error
      (w ++ ReadBody :: retries (outbound apiKey request) 0 (length fails)
         ++ [Fetch (outbound apiKey request)]).
Proof.
  intros Harr Hans Hfail Hlen Hend.
  rewrite (process_payload_valid w Harr).
  unfold try_catch at 1. rewrite bind_run.
  rewrite (attempts_settle env (outbound apiKey request) fails r maxRetries 0
             None (w ++ [ReadBody])).
  - rewrite <- app_assoc. reflexivity.
  - rewrite count_fetch_app. simpl. rewrite Nat.add_0_r. exact Hans.
  - exact Hfail.
  - exact Hlen.
  - simpl; lia.
  - destruct Hend as [?|?]; [left; assumption | right; simpl; lia].
Qed.

Lemma process_payload_throw (fails : list FetchResponse) (e : Exn) (w : World) :
  isArray (prop (body request) "parts") = true ->
  answered env (outbound apiKey request) (count_fetch w) fails ->
  Forall (fun x => ok x = false) fails ->
  upstream env (count_fetch w + length fails) (outbound apiKey request)
  = Throw e ->
  (length fails < 3)%nat ->
  process_payload env apiKey request w
  = (Val (mkResponse 500 (error_body "Internal server error during fetch.")),
     w ++ ReadBody :: retries (outbound apiKey request) 0 (length fails)
       ++ [Fetch (outbound apiKey request);
           ConsoleError [LVal (JStr "Proxy fetch error:"); LExn e]]).
Proof.
  intros Harr Hans Hfail He Hlen.
  rewrite (process_payload_valid w Harr).
  unfold try_catch. rewrite bind_run.
  rewrite (attempts_throw env (outbound apiKey request) fails e maxRetries 0
             None (w ++ [ReadBody])).
  - rewrite on_fetch_error_run. f_equal.
    rewrite <- !app_assoc. reflexivity.
  - rewrite count_fetch_app. simpl. rewrite Nat.add_0_r. exact Hans.
  - exact Hfail.
  - rewrite count_fetch_app. simpl. rewrite Nat.add_0_r. exact He.
  - exact Hlen.
  - simpl; lia.
Qed.

(** Payload processing always ends in a response; after reading the body
    it only calls the upstream with [outbound apiKey request], waits and
    logs, and it calls at most three times. *)
Lemma process_payload_answers (w : World) :
  exists resp t,
    process_payload env apiKey request w = (Val resp, w ++ ReadBody :: t)
    /\ Forall (is_call (outbound apiKey request)) t
    /\ (count_fetch t <= 3)%nat.
Proof.
  destruct (isArray (prop (body request) "parts")) eqn:Harr.
  - rewrite (process_payload_valid w Harr).
    unfold try_catch at 1. rewrite bind_run.
    destruct (attempts_trace env (outbound apiKey request) maxRetries 0 None
                (w ++ [ReadBody])) as (t & Ht & Hall & Hcount).
    destruct (attempts env (outbound apiKey request) maxRetries 0 None
                (w ++ [ReadBody])) as [[g|e] w'] eqn:Hrun;
      cbn [snd] in Ht; subst w'.
    + destruct (translate_answers g ((w ++ [ReadBody]) ++ t))
        as (resp & t' & Hresp & Hlog).
      unfold try_catch in Hresp. rewrite Hresp.
      exists resp, (t ++ t'). rewrite <- !app_assoc. split; [reflexivity|].
      split.
      * apply Forall_app. split.
        -- eapply Forall_impl; [exact Hall|].
           intros ev [->|Hms]; [left; reflexivity | right; left; exact Hms].
        -- eapply Forall_impl; [exact Hlog|].
           intros ev Hev. right; right; exact Hev.
      * rewrite count_fetch_app, (count_fetch_logs t' Hlog).
        unfold maxRetries in Hcount. lia.
    + rewrite on_fetch_error_run.
      eexists _, (t ++ [_]). rewrite <- !app_assoc. split; [reflexivity|].
      split.
      * apply Forall_app. split.
        -- eapply Forall_impl; [exact Hall|].
           intros ev [->|Hms]; [left; reflexivity | right; left; exact Hms].
        -- constructor; [|constructor]. right; right. eexists; reflexivity.
      * rewrite count_fetch_app. simpl. unfold maxRetries in Hcount. lia.
  - rewrite (process_payload_reject w Harr).
    exists (mkResponse 400 (error_body "Missing content parts.")), [].
    repeat split; [constructor | simpl; lia].
Qed.

End ProcessPayload.

(** ** The gates in front of payload processing *)

Lemma attempts_first (env : Env) (req : FetchRequest) (fuel attempt : nat)
    (last : option FetchResponse) (w : World) :
  exists t,
    (attempts env req (S fuel) attempt last w).2 = w ++ Fetch req :: t.
Proof.
  cbn [attempts]. rewrite bind_run, fetch_run.
  destruct (upstream env (count_fetch w) req) as [r|e].
  - destruct (ok r || (attempt =? maxRetries - 1)%nat).
    + exists []. reflexivity.
    + rewrite bind_run. unfold sleep, emit at 1.
      destruct (attempts_trace env req fuel (S attempt) (Some r)
                  ((w ++ [Fetch req])
                     ++ [SetTimeout (delay * 2 ^ Z.of_nat attempt)]))
        as (t & -> & _).
      eexists. rewrite <- !app_assoc. reflexivity.
  - exists []. reflexivity.
Qed.

(** A valid payload is forwarded: the first thing payload processing does
    after reading the body is to call the upstream. *)
Lemma process_payload_forwards (env : Env) (apiKey : string)
    (request : Request) (w : World) :
  isArray (prop (body request) "parts") = true ->
  exists resp t,
    process_payload env apiKey request w
    = (Val resp, w ++ ReadBody :: Fetch (outbound apiKey request) :: t).
Proof.
  intros Harr.
  destruct (process_payload_answers env apiKey request w)
    as (resp & t & Hrun & _).
  exists resp. rewrite Hrun.
  rewrite (process_payload_valid env apiKey request w Harr) in Hrun.
  unfold try_catch in Hrun. rewrite bind_run in Hrun.
  set (req := outbound apiKey request) in *.
  destruct (attempts_first env req 2 0 None (w ++ [ReadBody])) as [t1 Ht1].
  change (S 2) with maxRetries in Ht1.
  destruct (attempts env req maxRetries 0 None (w ++ [ReadBody]))
    as [[g|e] w1]; cbn [snd] in Ht1; subst w1.
  - destruct (translate_answers g ((w ++ [ReadBody]) ++ Fetch req :: t1))
      as (resp' & t2 & Hresp & _).
    unfold try_catch in Hresp. rewrite Hresp in Hrun.
    injection Hrun as _ Ht. rewrite <- !app_assoc in Ht.
    apply app_inv_head in Ht. injection Ht as <-.
    eexists. reflexivity.
  - rewrite on_fetch_error_run in Hrun.
    injection Hrun as _ Ht. rewrite <- !app_assoc in Ht.
    apply app_inv_head in Ht. injection Ht as <-.
    eexists. reflexivity.
Qed.

Lemma count_fetch_gate (v : Variant) (env : Env) (request : Request) :
  count_fetch (gate_trace v env request) = 0%nat.
Proof.
  destruct v; simpl; [reflexivity|]. destruct (bearer request); reflexivity.
Qed.

Lemma elapsed_gate (v : Variant) (env : Env) (request : Request) :
  elapsed (gate_trace v env request) = 0.
Proof.
  destruct v; simpl; [reflexivity|]. destruct (bearer request); reflexivity.
Qed.

(** The token check of the authenticated handler, case by case. *)
Lemma token_gate_no_bearer (env : Env) (request : Request) (w : World) :
  bearer request = None ->
  Authenticated.token_gate env request w
  = (Val (Authenticated.Returned
            (mkResponse 401
               (error_body "Authorization header missing or invalid."))), w).
Proof.
  unfold bearer, Authenticated.token_gate, try_catch. intros Hb.
  destruct (headers request !! "authorization") as [h|]; [|reflexivity].
  destruct (String.eqb h "" || negb (String.prefix "Bearer " h));
    [reflexivity | discriminate].
Qed.

Lemma token_gate_bearer (env : Env) (request : Request) (t : JValue)
    (w : World) :
  bearer request = Some t ->
  Authenticated.token_gate env request w
  = match verifyIdToken env t with
    | Val d =>
        (Val (if negb (truthy d) || Authenticated.is_null (prop d "uid")
              then Authenticated.Returned
                     (mkResponse 403
                        (error_body "Invalid or revoked user token."))
              else Authenticated.Verified d),
         w ++ [VerifyIdToken t (Val d)])
    | Throw e =>
        (Val (Authenticated.Returned
                (mkResponse 403
                   (error_body "Access denied: Token verification failed."))),
         w ++ [VerifyIdToken t (Throw e);
               ConsoleError [LVal (JStr "Token verification error:");
                             LVal (exn_code e);
                             LVal (JStr (exn_message e))]])
    end.
Proof.
  unfold bearer, Authenticated.token_gate, try_catch. intros Hb.
  destruct (headers request !! "authorization") as [h|]; [|discriminate].
  destruct (String.eqb h "" || negb (String.prefix "Bearer " h));
    [discriminate|].
  injection Hb as <-. rewrite bind_run. unfold Authenticated.verify.
  destruct (verifyIdToken env (Authenticated.idToken_of h)) as [d|e].
  - destruct (negb (truthy d) || Authenticated.is_null (prop d "uid"));
      reflexivity.
  - unfold console_error, emit. run. rewrite <- app_assoc. reflexivity.
Qed.

(** An admitted request reaches payload processing, with nothing in the
    trace but the successful verification. *)
Lemma handler_admitted (v : Variant) (env : Env) (request : Request) :
  admitted v env request = true ->
  handler_of v env request []
  = process_payload env (default "" (GEMINI_API_KEY env)) request
      (gate_trace v env request).
Proof.
  unfold admitted, configured. intros H.
  apply andb_true_iff in H as [H Hver]. apply andb_true_iff in H as [Hm Hc].
  apply andb_true_iff in Hc as [Hk Hc]. apply negb_true_iff in Hk.
  destruct v; simpl.
  - unfold Generate.handler. rewrite Hm, Hk. reflexivity.
  - apply andb_true_iff in Hc as [Hs Ha].
    apply negb_true_iff in Hs, Ha.
    unfold Authenticated.handler. rewrite Hm, Hk, Hs, Ha. cbn [negb orb].
    unfold verified, accepts in Hver.
    destruct (bearer request) as [t|] eqn:Hb; [|discriminate].
    rewrite bind_run, (token_gate_bearer env request t [] Hb).
    destruct (verifyIdToken env t) as [d|e]; [|discriminate].
    apply andb_true_iff in Hver as [Ht Hu].
    rewrite Ht. cbn [negb orb]. apply negb_true_iff in Hu. rewrite Hu.
    reflexivity.
Qed.

(** A request that is not admitted is answered by the gates: its body is
    never read and the upstream never called. *)
Lemma handler_refused (v : Variant) (env : Env) (request : Request) :
  admitted v env request = false ->
  exists resp t,
    handler_of v env request [] = (Val resp, t)
    /\ Forall (is_gate_event env) t.
Proof.
  unfold admitted, configured. intros H.
  destruct v; simpl.
  - unfold Generate.handler.
    destruct (String.eqb (method request) "POST"); cbn [negb].
    + destruct (missing (GEMINI_API_KEY env)); [|discriminate].
      do 2 eexists. split; [reflexivity|].
      constructor; [left; eexists; reflexivity | constructor].
    + do 2 eexists. split; [reflexivity | constructor].
  - unfold Authenticated.handler.
    destruct (String.eqb (method request) "POST"); cbn [negb];
      [|do 2 eexists; split; [reflexivity | constructor]].
    destruct (missing (GEMINI_API_KEY env)); cbn [negb andb] in *;
      [do 2 eexists; split; [reflexivity | constructor]|].
    destruct (missing (FIREBASE_SERVICE_ACCOUNT_KEY env)); cbn [negb andb orb] in *;
      [do 2 eexists; split; [reflexivity | constructor]|].
    destruct (Authenticated.admin_apps_length env =? 0)%nat; cbn [negb andb] in *;
      [do 2 eexists; split; [reflexivity | constructor]|].
    unfold verified in H. rewrite bind_run.
    destruct (bearer request) as [t|] eqn:Hb.
    + rewrite (token_gate_bearer env request t [] Hb).
      pose proof H as Hacc. unfold accepts in H.
      destruct (verifyIdToken env t) as [d|e] eqn:Hv.
      * assert (negb (truthy d) || Authenticated.is_null (prop d "uid") = true)
          as -> by (destruct (truthy d), (Authenticated.is_null (prop d "uid"));
                    simpl in *; congruence).
        do 2 eexists. split; [reflexivity|].
        constructor; [|constructor].
        right. exists t. rewrite Hv. split; [reflexivity | exact Hacc].
      * do 2 eexists. split; [reflexivity|].
        constructor; [right; exists t; rewrite Hv; split; [reflexivity | exact Hacc]|].
        constructor; [left; eexists; reflexivity | constructor].
    + rewrite (token_gate_no_bearer env request [] Hb).
      do 2 eexists. split; [reflexivity | constructor].
Qed.

(** ** Every request is answered *)

Lemma handler_answers (v : Variant) (env : Env) (request : Request) :
  exists resp t, handler_of v env request [] = (Val resp, t).
Proof.
  destruct (admitted v env request) eqn:Hadm.
  - rewrite (handler_admitted v env request Hadm).
    destruct (process_payload_answers env (default "" (GEMINI_API_KEY env))
                request (gate_trace v env request)) as (resp & t & -> & _).
    eauto.
  - destruct (handler_refused v env request Hadm) as (resp & t & -> & _).
    eauto.
Qed.

(** ** Payload validation *)

(** C6: a POST request that passes the configuration check (and, in the
    authenticated variant, credential verification) and whose body has no
    [parts] field, or one that is not an array, is answered 400 with
    [{"error":"Missing content parts."}], and no upstream call is made. *)
Theorem missing_parts_rejected (v : Variant) (env : Env) (request : Request) :
  admitted v env request = true ->
  isArray (prop (body request) "parts") = false ->
  handler_of v env request []
  = (Val (mkResponse 400 (error_body "Missing content parts.")),
     gate_trace v env request ++ [ReadBody])
  /\ count_fetch (handler_of v env request []).2 = 0%nat.
Proof.
  intros Hadm Harr.
  rewrite (handler_admitted v env request Hadm).
  rewrite (process_payload_reject env _ request _ Harr).
  split; [reflexivity|].
  cbn [snd]. rewrite count_fetch_app, count_fetch_gate. reflexivity.
Qed.

Lemma missing_parts_rejected_witness :
  admitted Secured (Sample.server (Val Sample.user) [])
    (Sample.post (JObj [("parts", JStr "hello")])) = true
  /\ isArray (prop (body (Sample.post (JObj [("parts", JStr "hello")]))) "parts")
     = false
  /\ (handler_of Secured (Sample.server (Val Sample.user) [])
        (Sample.post (JObj [("parts", JStr "hello")])) []).1
     = Val (mkResponse 400 (error_body "Missing content parts.")).
Proof.
  split; [reflexivity|]. split; [reflexivity|].
  destruct (missing_parts_rejected Secured (Sample.server (Val Sample.user) [])
              (Sample.post (JObj [("parts", JStr "hello")])))
    as [Hrun _]; [reflexivity | reflexivity |].
  rewrite Hrun. reflexivity.
Defined.

(** C10: when the body of an admitted POST request is entirely absent
    ([null] or [undefined]), destructuring it would throw, outside any
    [try] block; the handler destructures [request.body || {}] instead,
    which is [{}] here and yields no [parts], and answers 400 with
    [{"error":"Missing content parts."}]. Whatever the body, the payload
    that is destructured is neither [null] nor [undefined], and no
    request, in either variant, makes the handler raise: it always ends in
    a response. *)
Theorem absent_body_rejected (v : Variant) (env : Env) (request : Request) :
  admitted v env request = true ->
  body request = JNull \/ body request = JUndefined ->
  (forall w, exists e, destructure (body request) w = (Throw e, w))
  /\ payload_of (body request) = JObj []
  /\ (forall w,
        destructure (payload_of (body request)) w
        = (Val (JUndefined, JUndefined), w))
  /\ handler_of v env request []
     = (Val (mkResponse 400 (error_body "Missing content parts.")),
        gate_trace v env request ++ [ReadBody])
  /\ (forall b w, exists fields, destructure (payload_of b) w = (Val fields, w))
  /\ (forall v' env' request',
        exists resp t, handler_of v' env' request' [] = (Val resp, t)).
Proof.
  intros Hadm Hbody. split; [|split; [|split; [|split; [|split]]]].
  - intros w. apply destructure_nullish.
    destruct Hbody as [->| ->]; reflexivity.
  - destruct Hbody as [->| ->]; reflexivity.
  - intros w. destruct Hbody as [->| ->]; reflexivity.
  - rewrite (handler_admitted v env request Hadm).
    apply process_payload_reject.
    destruct Hbody as [->| ->]; reflexivity.
  - intros b w. eexists. apply destructure_payload.
  - intros v' env' request'. apply handler_answers.
Qed.

Lemma absent_body_rejected_witness :
  admitted Open (Sample.server (Val Sample.user) []) (Sample.post JUndefined)
  = true
  /\ (exists e, destructure (body (Sample.post JUndefined)) [] = (Throw e, []))
  /\ handler_of Open (Sample.server (Val Sample.user) [])
       (Sample.post JUndefined) []
     = (Val (mkResponse 400 (error_body "Missing content parts.")), [ReadBody]).
Proof.
  split; [reflexivity|].
  destruct (absent_body_rejected Open (Sample.server (Val Sample.user) [])
              (Sample.post JUndefined))
    as (Hthrow & _ & _ & Hrun & _); [reflexivity | right; reflexivity |].
  split; [apply Hthrow | exact Hrun].
Defined.

(** C7, as the handlers have it: [parts] has to be an array, and an empty
    one is an array like any other. A request whose [parts] is [[]] passes
    validation and is forwarded, the upstream being called with
    [contents[0].parts] empty. *)
Theorem empty_parts_forwarded (v : Variant) (env : Env) (request : Request) :
  admitted v env request = true ->
  prop (body request) "parts" = JArr [] ->
  (exists resp t,
      handler_of v env request []
      = (Val resp,
         gate_trace v env request
           ++ ReadBody :: Fetch (request_for env request) :: t))
  /\ prop (index0 (prop (f_body (request_for env request)) "contents")) "parts"
     = JArr [].
Proof.
  intros Hadm Hparts. split.
  - rewrite (handler_admitted v env request Hadm).
    apply process_payload_forwards. rewrite Hparts. reflexivity.
  - unfold request_for. simpl. exact Hparts.
Qed.

Lemma empty_parts_forwarded_witness :
  admitted Open (Sample.server (Val Sample.user) [Sample.success (JStr "hi")])
    (Sample.post Sample.empty_parts) = true
  /\ prop (body (Sample.post Sample.empty_parts)) "parts" = JArr []
  /\ prop (index0 (prop (f_body
             (request_for
                (Sample.server (Val Sample.user) [Sample.success (JStr "hi")])
                (Sample.post Sample.empty_parts))) "contents")) "parts"
     = JArr [].
Proof.
  split; [reflexivity|]. split; [reflexivity|].
  apply (empty_parts_forwarded Open
           (Sample.server (Val Sample.user) [Sample.success (JStr "hi")])
           (Sample.post Sample.empty_parts)); reflexivity.
Defined.

(** C7, as stated, fails: this request has an empty [parts] array, and it
    is not rejected but sent upstream and answered 200. *)
Lemma empty_parts_not_rejected :
  prop (body (Sample.post Sample.empty_parts)) "parts" = JArr []
  /\ handler_of Open
       (Sample.server (Val Sample.user) [Sample.success (JStr "hi")])
       (Sample.post Sample.empty_parts) []
     = (Val (mkResponse 200 (JObj [("text", JStr "hi")])),
        [ReadBody;
         Fetch (request_for
                  (Sample.server (Val Sample.user) [Sample.success (JStr "hi")])
                  (Sample.post Sample.empty_parts))]).
Proof. split; reflexivity. Qed.

(** ** Configuration check *)

(** C8, as the handlers have it: the method is checked before the
    configuration, so it is every POST request that is answered 500 with
    [{"error":"Server key not configured."}] while the API key is missing,
    whatever its headers and body; nothing is verified, read or sent. *)
Theorem unconfigured_post_refused (v : Variant) (env : Env) (request : Request) :
  method request = "POST" ->
  missing (GEMINI_API_KEY env) = true ->
  exists t,
    handler_of v env request []
    = (Val (mkResponse 500 (error_body "Server key not configured.")), t)
    /\ Forall is_log t.
Proof.
  intros Hm Hk. destruct v; simpl.
  - unfold Generate.handler. rewrite Hm, Hk. simpl.
    eexists. split; [reflexivity|].
    constructor; [eexists; reflexivity | constructor].
  - unfold Authenticated.handler. rewrite Hm, Hk. simpl.
    eexists. split; [reflexivity | constructor].
Qed.

Lemma unconfigured_post_refused_witness :
  method (Sample.post Sample.hello) = "POST"
  /\ missing (GEMINI_API_KEY Sample.unconfigured) = true
  /\ exists t,
       handler_of Secured Sample.unconfigured (Sample.post Sample.hello) []
       = (Val (mkResponse 500 (error_body "Server key not configured.")), t)
       /\ Forall is_log t.
Proof.
  split; [reflexivity|]. split; [reflexivity|].
  apply (unconfigured_post_refused Secured Sample.unconfigured
           (Sample.post Sample.hello)); reflexivity.
Defined.

(** C8, as stated, fails: with the API key missing, a GET request is
    answered 405, not 500, by both variants. *)
Lemma unconfigured_get_is_405 :
  missing (GEMINI_API_KEY Sample.unconfigured) = true
  /\ handler_of Open Sample.unconfigured Sample.get []
     = (Val (mkResponse 405 (error_body "Method Not Allowed")), [])
  /\ handler_of Secured Sample.unconfigured Sample.get []
     = (Val (mkResponse 405 (error_body "Method Not Allowed")), []).
Proof. repeat split. Qed.

(** ** Upstream request builder *)

(** C5: the body built for the upstream has a [contents] list of exactly
    one element, with role ["user"] and with the input [parts], untouched,
    as its [parts]; [systemInstruction.parts[0].text] is the input
    [systemInstruction]. Being a function of the two inputs, the body is
    the same whenever they are; and every upstream call made for a
    validated payload carries it. *)
Theorem geminiPayload_shape (parts systemInstruction : JValue) :
  (exists content,
      prop (geminiPayload parts systemInstruction) "contents" = JArr [content]
      /\ prop content "role" = JStr "user"
      /\ prop content "parts" = parts)
  /\ prop (index0 (prop (prop (geminiPayload parts systemInstruction)
                           "systemInstruction") "parts")) "text"
     = systemInstruction
  /\ (forall v env request req',
        admitted v env request = true ->
        isArray (prop (body request) "parts") = true ->
        parts = prop (body request) "parts" ->
        systemInstruction = prop (body request) "systemInstruction" ->
        Fetch (request_for env request) ∈ (handler_of v env request []).2
        /\ (Fetch req' ∈ (handler_of v env request []).2 ->
            f_body req' = geminiPayload parts systemInstruction)).
Proof.
  split; [|split].
  - eexists. split; [reflexivity|]. split; reflexivity.
  - reflexivity.
  - intros v env request req' Hadm Harr -> ->.
    rewrite (handler_admitted v env request Hadm). split.
    + destruct (process_payload_forwards env (default "" (GEMINI_API_KEY env))
                  request (gate_trace v env request) Harr)
        as (resp & t & ->).
      cbn [snd]. apply elem_of_app. right.
      apply elem_of_cons. right. apply elem_of_cons. left. reflexivity.
    + destruct (process_payload_answers env (default "" (GEMINI_API_KEY env))
                  request (gate_trace v env request))
        as (resp & t & -> & Hall & _).
      cbn [snd]. intros Hin.
      apply elem_of_app in Hin as [Hin|Hin].
      * destruct v; simpl in Hin; [inversion Hin|].
        destruct (bearer request); [|inversion Hin].
        apply list_elem_of_singleton in Hin. discriminate.
      * apply elem_of_cons in Hin as [Hin|Hin]; [discriminate|].
        rewrite Forall_forall in Hall. apply Hall in Hin.
        destruct Hin as [Heq|[[ms Heq]|[args Heq]]]; try discriminate.
        injection Heq as ->. reflexivity.
Qed.

Lemma geminiPayload_shape_witness :
  admitted Open (Sample.server (Val Sample.user) [Sample.success (JStr "hi")])
    (Sample.post Sample.hello) = true
  /\ isArray (prop (body (Sample.post Sample.hello)) "parts") = true
  /\ Fetch (request_for
              (Sample.server (Val Sample.user) [Sample.success (JStr "hi")])
              (Sample.post Sample.hello))
     ∈ (handler_of Open
          (Sample.server (Val Sample.user) [Sample.success (JStr "hi")])
          (Sample.post Sample.hello) []).2.
Proof.
  split; [reflexivity|]. split; [reflexivity|].
  destruct (geminiPayload_shape
              (prop (body (Sample.post Sample.hello)) "parts")
              (prop (body (Sample.post Sample.hello)) "systemInstruction"))
    as (_ & _ & Hsent).
  apply (Hsent Open
           (Sample.server (Val Sample.user) [Sample.success (JStr "hi")])
           (Sample.post Sample.hello)
           (request_for
              (Sample.server (Val Sample.user) [Sample.success (JStr "hi")])
              (Sample.post Sample.hello))); reflexivity.
Defined.

(** ** Resilient caller *)

Lemma count_fetch_gate_events (env : Env) (t : World) :
  Forall (is_gate_event env) t -> count_fetch t = 0%nat.
Proof.
  induction 1 as [|ev t Hev _ IH]; [reflexivity|].
  destruct Hev as [[args ->]|(tok & -> & _)]; exact IH.
Qed.

(** No request makes either handler call the upstream more than
    [maxRetries] times. *)
Lemma at_most_three_calls (v : Variant) (env : Env) (request : Request) :
  (count_fetch (handler_of v env request []).2 <= 3)%nat.
Proof.
  destruct (admitted v env request) eqn:Hadm.
  - rewrite (handler_admitted v env request Hadm).
    destruct (process_payload_answers env (default "" (GEMINI_API_KEY env))
                request (gate_trace v env request))
      as (resp & t & -> & _ & Hcount).
    cbn [snd]. rewrite count_fetch_app, count_fetch_gate. simpl. exact Hcount.
  - destruct (handler_refused v env request Hadm) as (resp & t & -> & Hall).
    cbn [snd]. rewrite (count_fetch_gate_events env t Hall). lia.
Qed.

(** The run of an admitted request with a valid payload whose upstream
    answers [fails], all non-2xx, and then [r], a 2xx answer or the answer
    to the third attempt. *)
Lemma handler_settle (v : Variant) (env : Env) (request : Request)
    (fails : list FetchResponse) (r : FetchResponse) :
  admitted v env request = true ->
  isArray (prop (body request) "parts") = true ->
  answered env (request_for env request) 0 (fails ++ [r]) ->
  Forall (fun x => ok x = false) fails ->
  (length fails < 3)%nat ->
  ok r = true \/ length fails = 2%nat ->
  handler_of v env request []
  = try_catch (translate (Some r)) on_fetch_error
      (gate_trace v env request
         ++ ReadBody :: retries (request_for env request) 0 (length fails)
         ++ [Fetch (request_for env request)]).
Proof.
  intros Hadm Harr Hans Hfail Hlen Hend.
  rewrite (handler_admitted v env request Hadm).
  apply process_payload_settle; try assumption.
  rewrite count_fetch_gate. exact Hans.
Qed.

(** C2, as the handlers have it: the resilient caller makes at most three
    upstream calls, one after the other. While the answers are non-2xx and
    the attempt is not the third, it waits [1000 * 2^attempt] and calls
    again; the first 2xx answer, or the answer to the third attempt, ends
    the loop and alone decides the response. The body of that answer is
    parsed before its status is looked at: when it is not JSON the
    response is 500 with [{"error":"Internal server error during fetch."}]
    whatever the status. Otherwise a non-2xx answer gives its own status
    with [{"error":"AI Service Error","details":<its body>}], which is the
    outcome of three non-2xx answers; and a 2xx answer gives the result
    drawn from it (200 with the text, 500 for an empty response, 500 for a
    [null] body), after waits of 1000 and 2000 when it is the third. *)
Theorem retry_policy (v : Variant) (env : Env) (request : Request)
    (fails : list FetchResponse) (r : FetchResponse) :
  admitted v env request = true ->
  isArray (prop (body request) "parts") = true ->
  answered env (request_for env request) 0 (fails ++ [r]) ->
  Forall (fun x => ok x = false) fails ->
  (length fails < 3)%nat ->
  ok r = true \/ length fails = 2%nat ->
  handler_of v env request []
  = try_catch (translate (Some r)) on_fetch_error
      (gate_trace v env request
         ++ ReadBody :: retries (request_for env request) 0 (length fails)
         ++ [Fetch (request_for env request)])
  /\ count_fetch (handler_of v env request []).2 = S (length fails)
  /\ elapsed (handler_of v env request []).2
     = 1000 * (2 ^ Z.of_nat (length fails) - 1)
  /\ (forall v' env' request',
        (count_fetch (handler_of v' env' request' []).2 <= 3)%nat)
  /\ (handler_of v env request []).1
     = Val match f_parsed r with
           | None =>
               mkResponse 500 (error_body "Internal server error during fetch.")
           | Some result =>
               if ok r then
                 if nullish result then
                   mkResponse 500
                     (error_body "Internal server error during fetch.")
                 else if truthy (text_path result) then
                   mkResponse 200 (JObj [("text", text_path result)])
                 else mkResponse 500 (error_body "AI response was empty.")
               else
                 mkResponse (f_status r)
                   (JObj [("error", JStr "AI Service Error");
                          ("details", result)])
           end
  /\ (length fails = 2%nat ->
      ok r = true ->
      elapsed (handler_of v env request []).2 = 1000 + 2000)
  /\ (ok r = false -> length fails = 2%nat).
Proof.
  intros Hadm Harr Hans Hfail Hlen Hend.
  pose proof (handler_settle v env request fails r Hadm Harr Hans Hfail Hlen Hend)
    as Hrun.
  set (w := gate_trace v env request
              ++ ReadBody :: retries (request_for env request) 0 (length fails)
              ++ [Fetch (request_for env request)]) in *.
  assert (count_fetch w = S (length fails)) as Hcount.
  { unfold w. rewrite count_fetch_app, count_fetch_gate. simpl.
    rewrite count_fetch_app, count_fetch_retries. simpl. lia. }
  assert (elapsed w = 1000 * (2 ^ Z.of_nat (length fails) - 1)) as Hwait.
  { unfold w. rewrite elapsed_app, elapsed_gate. simpl.
    rewrite elapsed_app, elapsed_retries. unfold delay. simpl. lia. }
  destruct (translate_answers (Some r) w) as (resp & t & Hresp & Hlog).
  assert (elapsed (handler_of v env request []).2
          = 1000 * (2 ^ Z.of_nat (length fails) - 1)) as Hwait'.
  { rewrite Hrun, Hresp. cbn [snd].
    rewrite elapsed_app, (elapsed_logs t Hlog). lia. }
  split; [exact Hrun|].
  split; [|split; [exact Hwait'|split; [|split; [|split]]]].
  - rewrite Hrun, Hresp. cbn [snd].
    rewrite count_fetch_app, (count_fetch_logs t Hlog). lia.
  - intros v' env' request'. apply at_most_three_calls.
  - rewrite Hrun. destruct (f_parsed r) as [result|] eqn:Hp.
    + destruct (ok r) eqn:Hok.
      * destruct (nullish result) eqn:Hn.
        -- destruct (translate_2xx_null r result w Hok Hp Hn) as [e ->].
           reflexivity.
        -- rewrite (translate_2xx r result w Hok Hp Hn). cbn [fst].
           destruct (truthy (text_path result)); reflexivity.
      * rewrite (translate_non2xx r result w Hok Hp). reflexivity.
    + destruct (translate_unparsed r w Hp) as [e ->]. reflexivity.
  - intros Htwo _. rewrite Hwait', Htwo. reflexivity.
  - intros Hok. destruct Hend as [Hok'|Htwo]; [congruence | exact Htwo].
Qed.

Lemma retry_policy_witness :
  (admitted Secured (Sample.server (Val Sample.user) Sample.third_time_lucky)
     (Sample.post Sample.hello) = true
   /\ handler_of Secured
        (Sample.server (Val Sample.user) Sample.third_time_lucky)
        (Sample.post Sample.hello) []
      = (Val (mkResponse 200 (JObj [("text", JStr "hi")])),
         [VerifyIdToken (JStr "abc") (Val Sample.user);
          ReadBody;
          Fetch (outbound "k" (Sample.post Sample.hello));
          SetTimeout 1000;
          Fetch (outbound "k" (Sample.post Sample.hello));
          SetTimeout 2000;
          Fetch (outbound "k" (Sample.post Sample.hello))]))
  /\ (admitted Open (Sample.server (Val Sample.user) Sample.always_busy)
        (Sample.post Sample.hello) = true
      /\ (handler_of Open (Sample.server (Val Sample.user) Sample.always_busy)
            (Sample.post Sample.hello) []).1
         = Val (mkResponse 503
                  (JObj [("error", JStr "AI Service Error");
                         ("details", JStr "busy")]))).
Proof.
  split.
  - split; [reflexivity|].
    destruct (retry_policy Secured
                (Sample.server (Val Sample.user) Sample.third_time_lucky)
                (Sample.post Sample.hello)
                [Sample.busy; Sample.busy] (Sample.success (JStr "hi")))
      as [Hrun _].
    + reflexivity.
    + reflexivity.
    + simpl. repeat split.
    + repeat constructor.
    + simpl. lia.
    + left. reflexivity.
    + rewrite Hrun. reflexivity.
  - split; [reflexivity|].
    destruct (retry_policy Open
                (Sample.server (Val Sample.user) Sample.always_busy)
                (Sample.post Sample.hello)
                [Sample.busy; Sample.busy] Sample.busy)
      as (_ & _ & _ & _ & Hresp & _).
    + reflexivity.
    + reflexivity.
    + simpl. repeat split.
    + repeat constructor.
    + simpl. lia.
    + right. reflexivity.
    + exact Hresp.
Defined.

(** C2, as stated, fails: here all three attempts are answered 502 with a
    body that is not JSON, and the caller gets neither that status nor an
    [AI Service Error] body, but the 500 of the [catch] block. *)
Lemma unparsed_failure_not_passed_on :
  admitted Open (Sample.server (Val Sample.user) Sample.gateway_errors)
    (Sample.post Sample.hello) = true
  /\ answered (Sample.server (Val Sample.user) Sample.gateway_errors)
       (outbound "k" (Sample.post Sample.hello)) 0
       [Sample.bad_gateway; Sample.bad_gateway; Sample.bad_gateway]
  /\ ok Sample.bad_gateway = false
  /\ f_status Sample.bad_gateway = 502
  /\ count_fetch
       (handler_of Open (Sample.server (Val Sample.user) Sample.gateway_errors)
          (Sample.post Sample.hello) []).2 = 3%nat
  /\ (handler_of Open (Sample.server (Val Sample.user) Sample.gateway_errors)
        (Sample.post Sample.hello) []).1
     = Val (mkResponse 500 (error_body "Internal server error during fetch."))
  /\ (forall details,
        (handler_of Open
           (Sample.server (Val Sample.user) Sample.gateway_errors)
           (Sample.post Sample.hello) []).1
        <> Val (mkResponse 502
                  (JObj [("error", JStr "AI Service Error");
                         ("details", details)]))).
Proof.
  split; [reflexivity|]. split; [simpl; repeat split|].
  split; [reflexivity|]. split; [reflexivity|]. split; [reflexivity|].
  split; [reflexivity|]. intros details. discriminate.
Qed.

(** C3, as the handlers have it: the [try] block encloses the whole loop,
    so a connection error is not an answer that is retried. Whichever
    attempt raises it, after non-2xx answers to the ones before, the loop
    is left at once, with no wait and no further call, and the response
    is 500 with [{"error":"Internal server error during fetch."}]. *)
Theorem connection_error_surfaced (v : Variant) (env : Env) (request : Request)
    (fails : list FetchResponse) (e : Exn) :
  admitted v env request = true ->
  isArray (prop (body request) "parts") = true ->
  answered env (request_for env request) 0 fails ->
  Forall (fun x => ok x = false) fails ->
  (length fails < 3)%nat ->
  upstream env (length fails) (request_for env request) = Throw e ->
  handler_of v env request []
  = (Val (mkResponse 500 (error_body "Internal server error during fetch.")),
     gate_trace v env request
       ++ ReadBody :: retries (request_for env request) 0 (length fails)
       ++ [Fetch (request_for env request);
           ConsoleError [LVal (JStr "Proxy fetch error:"); LExn e]])
  /\ count_fetch (handler_of v env request []).2 = S (length fails).
Proof.
  intros Hadm Harr Hans Hfail Hlen He.
  rewrite (handler_admitted v env request Hadm).
  unfold request_for in *.
  rewrite (process_payload_throw env _ request fails e (gate_trace v env request));
    try assumption.
  - split; [reflexivity|]. cbn [snd].
    rewrite count_fetch_app, count_fetch_gate. simpl.
    rewrite count_fetch_app, count_fetch_retries. simpl. lia.
  - rewrite count_fetch_gate. exact Hans.
  - rewrite count_fetch_gate. exact He.
Qed.

Lemma connection_error_surfaced_witness :
  admitted Open (Sample.server (Val Sample.user) [Sample.busy])
    (Sample.post Sample.hello) = true
  /\ count_fetch
       (handler_of Open (Sample.server (Val Sample.user) [Sample.busy])
          (Sample.post Sample.hello) []).2 = 2%nat.
Proof.
  split; [reflexivity|].
  apply (connection_error_surfaced Open
           (Sample.server (Val Sample.user) [Sample.busy])
           (Sample.post Sample.hello) [Sample.busy]
           (mkExn (JStr "ECONNRESET") "fetch failed"));
    try reflexivity.
  - simpl. repeat split.
  - repeat constructor.
  - simpl. lia.
Defined.

(** C3, as stated, fails: here the first call raises a connection error
    and a second one would have been answered 200, yet the caller gets the
    500 after that single call. *)
Lemma connection_error_not_retried :
  admitted Open Sample.flaky (Sample.post Sample.hello) = true
  /\ upstream Sample.flaky 1 (request_for Sample.flaky (Sample.post Sample.hello))
     = Val (Sample.success (JStr "hi"))
  /\ handler_of Open Sample.flaky (Sample.post Sample.hello) []
     = (Val (mkResponse 500 (error_body "Internal server error during fetch.")),
        [ReadBody;
         Fetch (request_for Sample.flaky (Sample.post Sample.hello));
         ConsoleError [LVal (JStr "Proxy fetch error:");
                       LExn (mkExn (JStr "ECONNRESET") "fetch failed")]])
  /\ count_fetch
       (handler_of Open Sample.flaky (Sample.post Sample.hello) []).2 = 1%nat.
Proof. repeat split. Qed.

(** ** Response translator *)

Lemma opt_prop_undefined (v : JValue) (k : string) :
  present v = false -> opt_prop v k = JUndefined.
Proof. intros H. destruct v; try discriminate H; reflexivity. Qed.

Lemma opt_index0_undefined (v : JValue) :
  present v = false -> opt_index0 v = JUndefined.
Proof. intros H. destruct v; try discriminate H; reflexivity. Qed.

Lemma opt_prop_prop (v : JValue) (k : string) : opt_prop v k = prop v k.
Proof. destruct v; reflexivity. Qed.

(** A path with a segment missing leads to [undefined]. *)
Lemma path_absent (result : JValue) :
  path_present result = false -> text_path result = JUndefined.
Proof.
  unfold path_present, text_path. rewrite <- (opt_prop_prop result "candidates").
  set (s1 := opt_prop result "candidates").
  intros H.
  destruct (present s1) eqn:H1;
    [|rewrite (opt_index0_undefined s1 H1); reflexivity].
  set (s2 := opt_index0 s1) in *.
  destruct (present s2) eqn:H2;
    [|rewrite (opt_prop_undefined s2 _ H2); reflexivity].
  set (s3 := opt_prop s2 "content") in *.
  destruct (present s3) eqn:H3;
    [|rewrite (opt_prop_undefined s3 _ H3); reflexivity].
  set (s4 := opt_prop s3 "parts") in *.
  destruct (present s4) eqn:H4;
    [|rewrite (opt_index0_undefined s4 H4); reflexivity].
  set (s5 := opt_index0 s4) in *.
  destruct (present s5) eqn:H5;
    [|rewrite (opt_prop_undefined s5 _ H5); reflexivity].
  simpl in H. destruct (opt_prop s5 "text"); simpl in H; congruence.
Qed.

(** C4, as the handlers have it: what decides between 200 and the empty
    response is whether the extracted value is truthy. For a 2xx answer
    whose body parses to something other than [null], the response is 200
    with [{"text": <the text>}] when the text is truthy and 500 with
    [{"error":"AI response was empty."}] otherwise: so when a segment of
    the path is absent, and also when the text is there but is the empty
    string, zero, [false] or [null]. *)
Theorem response_translation (v : Variant) (env : Env) (request : Request)
    (fails : list FetchResponse) (r : FetchResponse) (result : JValue) :
  admitted v env request = true ->
  isArray (prop (body request) "parts") = true ->
  answered env (request_for env request) 0 (fails ++ [r]) ->
  Forall (fun x => ok x = false) fails ->
  (length fails < 3)%nat ->
  ok r = true ->
  f_parsed r = Some result ->
  nullish result = false ->
  (handler_of v env request []).1
  = Val (if truthy (text_path result)
         then mkResponse 200 (JObj [("text", text_path result)])
         else mkResponse 500 (error_body "AI response was empty."))
  /\ (path_present result = false ->
      (handler_of v env request []).1
      = Val (mkResponse 500 (error_body "AI response was empty.")))
  /\ ((handler_of v env request []).1
      = Val (mkResponse 500 (error_body "AI response was empty."))
      <-> truthy (text_path result) = false).
Proof.
  intros Hadm Harr Hans Hfail Hlen Hok Hp Hn.
  rewrite (handler_settle v env request fails r Hadm Harr Hans Hfail Hlen
             (or_introl Hok)).
  rewrite (translate_2xx r result _ Hok Hp Hn). cbn [fst].
  split; [reflexivity|]. split.
  - intros Habs. rewrite (path_absent result Habs). reflexivity.
  - destruct (truthy (text_path result)); split; intros H;
      try reflexivity; discriminate.
Qed.

Lemma response_translation_witness :
  admitted Open (Sample.server (Val Sample.user) [Sample.success (JStr "hi")])
    (Sample.post Sample.hello) = true
  /\ (handler_of Open
        (Sample.server (Val Sample.user) [Sample.success (JStr "hi")])
        (Sample.post Sample.hello) []).1
     = Val (mkResponse 200 (JObj [("text", JStr "hi")])).
Proof.
  split; [reflexivity|].
  apply (response_translation Open
           (Sample.server (Val Sample.user) [Sample.success (JStr "hi")])
           (Sample.post Sample.hello) [] (Sample.success (JStr "hi"))
           (Sample.generated (JStr "hi")));
    try reflexivity.
  - simpl. repeat split.
  - constructor.
  - simpl. lia.
Defined.

(** C4, as stated, fails: in this 2xx answer every segment of the path is
    present, the text being the empty string, and the response is the 500
    empty response. *)
Lemma empty_text_is_empty_response :
  ok (Sample.success (JStr "")) = true
  /\ f_parsed (Sample.success (JStr "")) = Some (Sample.generated (JStr ""))
  /\ path_present (Sample.generated (JStr "")) = true
  /\ handler_of Open
       (Sample.server (Val Sample.user) [Sample.success (JStr "")])
       (Sample.post Sample.hello) []
     = (Val (mkResponse 500 (error_body "AI response was empty.")),
        [ReadBody;
         Fetch (outbound "k" (Sample.post Sample.hello))]).
Proof. repeat split. Qed.

(** ** Credential verification *)

Lemma bearer_none (request : Request) :
  headers request !! "authorization" = None
  \/ (exists h, headers request !! "authorization" = Some h
                /\ String.prefix "Bearer " h = false) ->
  bearer request = None.
Proof.
  unfold bearer. intros [->|(h & -> & Hp)]; [reflexivity|].
  rewrite Hp, orb_true_r. reflexivity.
Qed.

Lemma bearer_some (request : Request) (h : string) :
  headers request !! "authorization" = Some h ->
  String.prefix "Bearer " h = true ->
  bearer request = Some (Authenticated.idToken_of h).
Proof.
  unfold bearer. intros -> Hp. rewrite Hp.
  destruct h; [discriminate Hp | reflexivity].
Qed.

Lemma secured_configured (env : Env) (request : Request) :
  method request = "POST" ->
  configured Secured env = true ->
  Authenticated.handler env request []
  = (Authenticated.token_gate env request
       ≫= fun gate =>
            match gate with
            | Authenticated.Returned r => mret r
            | Authenticated.Verified _ =>
                process_payload env (default "" (GEMINI_API_KEY env)) request
            end) [].
Proof.
  unfold configured. intros Hm Hc.
  apply andb_true_iff in Hc as [Hk Hc]. apply andb_true_iff in Hc as [Hs Ha].
  apply negb_true_iff in Hk, Hs, Ha.
  unfold Authenticated.handler. rewrite Hm, Hk, Hs, Ha. reflexivity.
Qed.

(** C1, as the handler has it: a POST request to the configured
    authenticated handler is answered 401 with
    [{"error":"Authorization header missing or invalid."}] when the
    [Authorization] header is absent or does not begin with ['Bearer '].
    When it does and verification fails, the status is 403 whatever the
    reason, but the body tells two cases apart: it is
    [{"error":"Access denied: Token verification failed."}] when
    verification raises (bad signature, expiry, unreachable service) and
    [{"error":"Invalid or revoked user token."}] when it returns no token
    or one whose subject identifier is [null]. Neither case reads the body
    or calls the upstream. *)
Theorem token_gate_responses (env : Env) (request : Request) :
  method request = "POST" ->
  configured Secured env = true ->
  (headers request !! "authorization" = None
   \/ (exists h, headers request !! "authorization" = Some h
                 /\ String.prefix "Bearer " h = false) ->
   Authenticated.handler env request []
   = (Val (mkResponse 401
             (error_body "Authorization header missing or invalid.")), []))
  /\ (forall h,
        headers request !! "authorization" = Some h ->
        String.prefix "Bearer " h = true ->
        accepts env (Authenticated.idToken_of h) = false ->
        exists t,
          Authenticated.handler env request []
          = (Val (mkResponse 403
                    (error_body
                       match verifyIdToken env (Authenticated.idToken_of h) with
                       | Throw _ => "Access denied: Token verification failed."
                       | Val _ => "Invalid or revoked user token."
                       end)), t)
          /\ Forall (is_gate_event env) t).
Proof.
  intros Hm Hc. rewrite (secured_configured env request Hm Hc). split.
  - intros Hh. rewrite bind_run.
    rewrite (token_gate_no_bearer env request [] (bearer_none request Hh)).
    reflexivity.
  - intros h Hh Hp Hacc. rewrite bind_run.
    rewrite (token_gate_bearer env request _ [] (bearer_some request h Hh Hp)).
    pose proof Hacc as Hacc'. unfold accepts in Hacc.
    destruct (verifyIdToken env (Authenticated.idToken_of h)) as [d|e] eqn:Hv.
    + assert (negb (truthy d) || Authenticated.is_null (prop d "uid") = true)
        as -> by (destruct (truthy d), (Authenticated.is_null (prop d "uid"));
                  simpl in *; congruence).
      eexists. split; [reflexivity|].
      constructor; [|constructor]. right. eexists. rewrite Hv.
      split; [reflexivity | exact Hacc'].
    + eexists. split; [reflexivity|].
      constructor; [right; eexists; rewrite Hv; split; [reflexivity | exact Hacc']|].
      constructor; [left; eexists; reflexivity | constructor].
Qed.

Lemma token_gate_responses_witness :
  method (Sample.post Sample.hello) = "POST"
  /\ configured Secured (Sample.server (Val Sample.revoked) []) = true
  /\ accepts (Sample.server (Val Sample.revoked) [])
       (Authenticated.idToken_of "Bearer abc") = false
  /\ exists t,
       Authenticated.handler (Sample.server (Val Sample.revoked) [])
         (Sample.post Sample.hello) []
       = (Val (mkResponse 403 (error_body "Invalid or revoked user token.")), t)
       /\ Forall (is_gate_event (Sample.server (Val Sample.revoked) [])) t.
Proof.
  split; [reflexivity|]. split; [reflexivity|]. split; [reflexivity|].
  destruct (token_gate_responses (Sample.server (Val Sample.revoked) [])
              (Sample.post Sample.hello)) as [_ Hdenied];
    [reflexivity | reflexivity |].
  apply (Hdenied "Bearer abc"); reflexivity.
Defined.

(** C1, as stated, fails: an expired token and the token of a revoked
    subject are both answered 403, but not with the same response. *)
Lemma denial_bodies_differ :
  (Authenticated.handler (Sample.server (Throw Sample.expired) [])
     (Sample.post Sample.hello) []).1
  = Val (mkResponse 403 (error_body "Access denied: Token verification failed."))
  /\ (Authenticated.handler (Sample.server (Val Sample.revoked) [])
        (Sample.post Sample.hello) []).1
     = Val (mkResponse 403 (error_body "Invalid or revoked user token."))
  /\ (Authenticated.handler (Sample.server (Throw Sample.expired) [])
        (Sample.post Sample.hello) []).1
     <> (Authenticated.handler (Sample.server (Val Sample.revoked) [])
           (Sample.post Sample.hello) []).1.
Proof. split; [reflexivity|]. split; [reflexivity|]. discriminate. Qed.

(** C9: in every run of the authenticated handler, whatever is in the
    trace before the body is read or the upstream called includes a token
    verification that returned, with a token that is truthy and whose
    subject identifier is not [null]. *)
Theorem verification_precedes_payload (env : Env) (request : Request)
    (pre post : World) (ev : Event) :
  (Authenticated.handler env request []).2 = pre ++ ev :: post ->
  is_payload_event ev ->
  exists t d,
    VerifyIdToken t (Val d) ∈ pre
    /\ verifyIdToken env t = Val d
    /\ truthy d = true
    /\ prop d "uid" <> JNull.
Proof.
  intros Htrace Hev.
  destruct (admitted Secured env request) eqn:Hadm.
  - pose proof (handler_admitted Secured env request Hadm) as Hrun.
    change (handler_of Secured env request)
      with (Authenticated.handler env request) in Hrun.
    rewrite Hrun in Htrace.
    destruct (process_payload_answers env (default "" (GEMINI_API_KEY env))
                request (gate_trace Secured env request))
      as (resp & t & Hpp & _).
    rewrite Hpp in Htrace. cbn [snd] in Htrace.
    unfold admitted in Hadm. apply andb_true_iff in Hadm as [_ Hver].
    unfold verified in Hver. simpl in Htrace.
    destruct (bearer request) as [tok|]; [|discriminate].
    unfold accepts in Hver.
    destruct (verifyIdToken env tok) as [d|e] eqn:Hv; [|discriminate].
    apply andb_true_iff in Hver as [Ht Hu]. apply negb_true_iff in Hu.
    exists tok, d.
    destruct pre as [|ev0 pre].
    + simpl in Htrace. injection Htrace as Hev0 _. subst ev.
      destruct Hev as [Hev|[req Hev]]; discriminate.
    + simpl in Htrace. injection Htrace as Hev0 _. subst ev0.
      split; [apply elem_of_cons; left; reflexivity|].
      split; [exact Hv|]. split; [exact Ht|].
      intros Hnull. rewrite Hnull in Hu. discriminate.
  - destruct (handler_refused Secured env request Hadm)
      as (resp & t & Hrun & Hall).
    change (handler_of Secured env request)
      with (Authenticated.handler env request) in Hrun.
    rewrite Hrun in Htrace. cbn [snd] in Htrace. subst t.
    apply Forall_app in Hall as [_ Hall]. apply Forall_cons in Hall as [Hg _].
    destruct Hev as [->|[req ->]];
      destruct Hg as [[args Hg]|(tok & Hg & _)]; discriminate.
Qed.

Lemma verification_precedes_payload_witness :
  (Authenticated.handler
     (Sample.server (Val Sample.user) [Sample.success (JStr "hi")])
     (Sample.post Sample.hello) []).2
  = [VerifyIdToken (JStr "abc") (Val Sample.user)]
      ++ ReadBody
      :: [Fetch (outbound "k" (Sample.post Sample.hello))]
  /\ is_payload_event ReadBody
  /\ exists t d,
       VerifyIdToken t (Val d) ∈ [VerifyIdToken (JStr "abc") (Val Sample.user)]
       /\ verifyIdToken
            (Sample.server (Val Sample.user) [Sample.success (JStr "hi")]) t
          = Val d
       /\ truthy d = true
       /\ prop d "uid" <> JNull.
Proof.
  split; [reflexivity|]. split; [left; reflexivity|].
  apply (verification_precedes_payload
           (Sample.server (Val Sample.user) [Sample.success (JStr "hi")])
           (Sample.post Sample.hello)
           [VerifyIdToken (JStr "abc") (Val Sample.user)]
           [Fetch (outbound "k" (Sample.post Sample.hello))]
           ReadBody);
    [reflexivity | left; reflexivity].
Defined.

(** * Beyond the claims *)

(** ** Reading the bearer token *)

Lemma app_cons (c : Ascii.ascii) (s t : string) :
  String c s +:+ t = String c (s +:+ t).
Proof. reflexivity. Qed.

Lemma app_snoc (cur : string) (c : Ascii.ascii) (t : string) :
  (cur +:+ String c "") +:+ t = cur +:+ String c t.
Proof.
  induction cur as [|a cur IH]; [reflexivity|].
  rewrite !app_cons, IH. reflexivity.
Qed.

Lemma prefix_cons (a b : Ascii.ascii) (s1 s2 : string) :
  String.prefix (String a s1) (String b s2) = true ->
  a = b /\ String.prefix s1 s2 = true.
Proof.
  simpl. destruct (Ascii.ascii_dec a b) as [->|]; [tauto | discriminate].
Qed.

(** A string that begins with [s1] is [s1] followed by something. *)
Lemma prefix_app (s1 : string) :
  forall s2, String.prefix s1 s2 = true -> exists rest, s2 = s1 +:+ rest.
Proof.
  induction s1 as [|a s1 IH]; intros s2 Hp.
  - exists s2. reflexivity.
  - destruct s2 as [|b s2]; [discriminate Hp|].
    apply prefix_cons in Hp as [-> Hp].
    destruct (IH s2 Hp) as [rest ->]. exists rest. reflexivity.
Qed.

(** The separator holds a space, so it occurs nowhere in a string without
    one. *)
Lemma no_space_no_separator (s : string) :
  no_space s = true -> String.prefix "Bearer " s = false.
Proof.
  intros Hs. destruct (String.prefix "Bearer " s) eqn:Hp; [|reflexivity].
  apply prefix_app in Hp as [rest ->].
  discriminate Hs.
Qed.

Lemma split_go_no_space (t : string) :
  forall cur,
    no_space t = true -> split_go "Bearer " 0 cur t = [cur +:+ t].
Proof.
  induction t as [|c t IH]; intros cur Ht.
  - simpl. f_equal. induction cur as [|a cur IHc]; [reflexivity|].
    rewrite app_cons, <- IHc. reflexivity.
  - cbn [split_go]. rewrite (no_space_no_separator _ Ht).
    simpl in Ht. apply andb_true_iff in Ht as [_ Ht].
    rewrite (IH _ Ht), app_snoc. reflexivity.
Qed.

Lemma split_go_nonempty (sep s : string) :
  forall skip cur, exists piece pieces, split_go sep skip cur s = piece :: pieces.
Proof.
  induction s as [|c s IH]; intros skip cur; [simpl; eauto|].
  cbn [split_go]. destruct skip as [|k]; [|apply IH].
  destruct (String.prefix sep (String c s)); [eauto | apply IH].
Qed.

Lemma prefix_app_l (s1 t : string) : String.prefix s1 (s1 +:+ t) = true.
Proof.
  induction s1 as [|a s1 IH]; [destruct t; reflexivity|].
  rewrite app_cons. simpl.
  destruct (Ascii.ascii_dec a a) as [_|Hne]; [exact IH | contradiction].
Qed.

(** Splitting a string that begins with the separator: an empty first
    piece, then the pieces of the rest. *)
Lemma split_go_separator (cur rest : string) :
  split_go "Bearer " 0 cur ("Bearer " +:+ rest)
  = cur :: split_go "Bearer " 0 "" rest.
Proof.
  rewrite (app_cons _ "earer " rest). cbn [split_go].
  rewrite <- (app_cons _ "earer " rest), prefix_app_l. reflexivity.
Qed.

(** X3: a token without a space comes back from the header as it was put
    in. *)
Theorem idToken_of_bearer (t : string) :
  no_space t = true ->
  String.prefix "Bearer " ("Bearer " +:+ t) = true
  /\ Authenticated.idToken_of ("Bearer " +:+ t) = JStr t.
Proof.
  intros Ht. split; [apply prefix_app_l|].
  unfold Authenticated.idToken_of, split.
  rewrite split_go_separator, (split_go_no_space t "" Ht). reflexivity.
Qed.

Lemma idToken_of_bearer_witness :
  no_space "eyJhbGciOi.J9.sig" = true
  /\ Authenticated.idToken_of "Bearer eyJhbGciOi.J9.sig"
     = JStr "eyJhbGciOi.J9.sig".
Proof.
  split; [reflexivity|].
  apply (idToken_of_bearer "eyJhbGciOi.J9.sig"). reflexivity.
Defined.

(** X4: whatever follows ['Bearer '] in the header, what is handed to the
    verifier is a string, never [undefined]; so a header that passes the
    prefix test always leads to a verification. *)
Theorem idToken_of_string (h : string) :
  String.prefix "Bearer " h = true ->
  exists t, Authenticated.idToken_of h = JStr t.
Proof.
  intros Hp. apply prefix_app in Hp as [rest ->].
  unfold Authenticated.idToken_of, split. rewrite split_go_separator.
  destruct (split_go_nonempty "Bearer " rest 0 "") as (piece & pieces & ->).
  exists piece. reflexivity.
Qed.

Lemma idToken_of_string_witness :
  String.prefix "Bearer " "Bearer " = true
  /\ exists t, Authenticated.idToken_of "Bearer " = JStr t.
Proof.
  split; [reflexivity|]. apply (idToken_of_string "Bearer "). reflexivity.
Defined.

(** ** The method and configuration gates *)

(** X1: a request whose method is not POST is answered 405 with
    [{"error":"Method Not Allowed"}] by both handlers, whatever the
    configuration, the headers and the body; nothing is logged, verified,
    read or sent. *)
Theorem method_not_allowed (v : Variant) (env : Env) (request : Request) :
  method request <> "POST" ->
  handler_of v env request []
  = (Val (mkResponse 405 (error_body "Method Not Allowed")), []).
Proof.
  intros Hm. apply String.eqb_neq in Hm.
  destruct v; simpl.
  - unfold Generate.handler. rewrite Hm. reflexivity.
  - unfold Authenticated.handler. rewrite Hm. reflexivity.
Qed.

Lemma method_not_allowed_witness :
  method Sample.get <> "POST"
  /\ handler_of Secured (Sample.server (Val Sample.user) []) Sample.get []
     = (Val (mkResponse 405 (error_body "Method Not Allowed")), []).
Proof.
  split; [discriminate|].
  apply (method_not_allowed Secured (Sample.server (Val Sample.user) [])
           Sample.get).
  discriminate.
Defined.

(** X2: the authenticated handler answers every POST request 500 with
    [{"error":"Firebase Admin not configured on server."}], without
    looking at the token, when the API key is set but the service account
    key is missing, or when no SDK application existed at load time and
    initialising one from the key failed. *)
Theorem firebase_not_configured (env : Env) (request : Request) :
  method request = "POST" ->
  missing (GEMINI_API_KEY env) = false ->
  missing (FIREBASE_SERVICE_ACCOUNT_KEY env) = true
  \/ (apps_before_load env = 0%nat
      /\ forall key,
           FIREBASE_SERVICE_ACCOUNT_KEY env = Some key ->
           initializeApp env key = false) ->
  Authenticated.handler env request []
  = (Val (mkResponse 500
            (error_body "Firebase Admin not configured on server.")), []).
Proof.
  intros Hm Hk Hcfg. unfold Authenticated.handler. rewrite Hm, Hk.
  assert (missing (FIREBASE_SERVICE_ACCOUNT_KEY env)
          || (Authenticated.admin_apps_length env =? 0)%nat = true) as ->;
    [|reflexivity].
  destruct Hcfg as [->|[Hload Hinit]]; [reflexivity|].
  apply orb_true_iff. right. apply Nat.eqb_eq.
  unfold Authenticated.admin_apps_length. rewrite Hload. simpl.
  destruct (FIREBASE_SERVICE_ACCOUNT_KEY env) as [key|]; [|reflexivity].
  destruct (String.eqb key ""); [reflexivity|].
  rewrite (Hinit key eq_refl). reflexivity.
Qed.

Lemma firebase_not_configured_witness :
  method (Sample.post Sample.hello) = "POST"
  /\ missing (GEMINI_API_KEY Sample.bad_service_key) = false
  /\ apps_before_load Sample.bad_service_key = 0%nat
  /\ Authenticated.handler Sample.bad_service_key (Sample.post Sample.hello) []
     = (Val (mkResponse 500
               (error_body "Firebase Admin not configured on server.")), []).
Proof.
  split; [reflexivity|]. split; [reflexivity|]. split; [reflexivity|].
  apply (firebase_not_configured Sample.bad_service_key
           (Sample.post Sample.hello)); [reflexivity | reflexivity |].
  right. split; [reflexivity|]. intros key _. reflexivity.
Defined.

(** ** Who gets through *)

Lemma fetch_not_in_gate (v : Variant) (env : Env) (request : Request)
    (req' : FetchRequest) :
  Fetch req' ∉ gate_trace v env request.
Proof.
  intros Hin. destruct v; simpl in Hin; [inversion Hin|].
  destruct (bearer request); [|inversion Hin].
  apply list_elem_of_singleton in Hin. discriminate.
Qed.

Lemma read_not_in_gate (v : Variant) (env : Env) (request : Request) :
  ReadBody ∉ gate_trace v env request.
Proof.
  intros Hin. destruct v; simpl in Hin; [inversion Hin|].
  destruct (bearer request); [|inversion Hin].
  apply list_elem_of_singleton in Hin. discriminate.
Qed.

Lemma gate_events_no_payload (env : Env) (t : World) (ev : Event) :
  Forall (is_gate_event env) t -> ev ∈ t -> ~ is_payload_event ev.
Proof.
  intros Hall Hin Hev. rewrite Forall_forall in Hall.
  destruct (Hall ev Hin) as [[args ->]|(tok & -> & _)];
    destruct Hev as [?|[req ?]]; discriminate.
Qed.

(** X5: the upstream is called for the admitted requests whose [parts] is
    an array and for no others, and every call is the same one: a POST of
    JSON to the model's [generateContent] endpoint under the configured
    key. Nothing in the inbound request changes where the call goes. *)
Theorem upstream_called_iff (v : Variant) (env : Env) (request : Request)
    (req' : FetchRequest) :
  (Fetch req' ∈ (handler_of v env request []).2
   <-> admitted v env request = true
       /\ isArray (prop (body request) "parts") = true
       /\ req' = request_for env request)
  /\ f_url (request_for env request)
     = API_URL_BASE +:+ "/" +:+ GEMINI_MODEL +:+ ":generateContent?key="
         +:+ default "" (GEMINI_API_KEY env)
  /\ f_method (request_for env request) = "POST"
  /\ f_headers (request_for env request)
     = [("Content-Type", "application/json")].
Proof.
  split; [|repeat split]. split.
  - intros Hin. destruct (admitted v env request) eqn:Hadm.
    + rewrite (handler_admitted v env request Hadm) in Hin.
      destruct (isArray (prop (body request) "parts")) eqn:Harr.
      * destruct (process_payload_answers env
                    (default "" (GEMINI_API_KEY env)) request
                    (gate_trace v env request))
          as (resp & t & Hrun & Hall & _).
        rewrite Hrun in Hin. cbn [snd] in Hin.
        apply elem_of_app in Hin as [Hin|Hin];
          [destruct (fetch_not_in_gate v env request req' Hin)|].
        apply elem_of_cons in Hin as [Hin|Hin]; [discriminate|].
        rewrite Forall_forall in Hall.
        destruct (Hall _ Hin) as [Heq|[[ms Heq]|[args Heq]]];
          try discriminate.
        injection Heq as ->. repeat split.
      * rewrite (process_payload_reject env _ request _ Harr) in Hin.
        cbn [snd] in Hin. apply elem_of_app in Hin as [Hin|Hin];
          [destruct (fetch_not_in_gate v env request req' Hin)|].
        apply list_elem_of_singleton in Hin. discriminate.
    + destruct (handler_refused v env request Hadm) as (resp & t & Hrun & Hall).
      rewrite Hrun in Hin. cbn [snd] in Hin.
      destruct (gate_events_no_payload env t _ Hall Hin).
      right. eexists. reflexivity.
  - intros (Hadm & Harr & ->).
    rewrite (handler_admitted v env request Hadm).
    destruct (process_payload_forwards env (default "" (GEMINI_API_KEY env))
                request (gate_trace v env request) Harr) as (resp & t & ->).
    cbn [snd]. apply elem_of_app. right.
    apply elem_of_cons. right. apply elem_of_cons. left. reflexivity.
Qed.

Lemma upstream_called_iff_witness :
  Fetch (outbound "k" (Sample.post Sample.hello))
  ∈ (handler_of Secured
       (Sample.server (Val Sample.user) [Sample.success (JStr "hi")])
       (Sample.post Sample.hello) []).2
  /\ Fetch (outbound "k" (Sample.post Sample.hello))
     ∉ (handler_of Secured
          (Sample.server (Val Sample.revoked) [Sample.success (JStr "hi")])
          (Sample.post Sample.hello) []).2.
Proof.
  split.
  - apply (upstream_called_iff Secured
             (Sample.server (Val Sample.user) [Sample.success (JStr "hi")])
             (Sample.post Sample.hello)).
    repeat split.
  - intros Hin.
    apply (upstream_called_iff Secured
             (Sample.server (Val Sample.revoked) [Sample.success (JStr "hi")])
             (Sample.post Sample.hello)) in Hin.
    destruct Hin as [Hadm _]. discriminate Hadm.
Defined.

(** X6: the body of a request is read exactly when the request is
    admitted: a POST to a configured server which, in the authenticated
    variant, carries a bearer token that verification accepts. *)
Theorem body_read_iff (v : Variant) (env : Env) (request : Request) :
  ReadBody ∈ (handler_of v env request []).2 <-> admitted v env request = true.
Proof.
  split.
  - intros Hin. destruct (admitted v env request) eqn:Hadm; [reflexivity|].
    destruct (handler_refused v env request Hadm) as (resp & t & Hrun & Hall).
    rewrite Hrun in Hin. cbn [snd] in Hin.
    destruct (gate_events_no_payload env t _ Hall Hin). left. reflexivity.
  - intros Hadm. rewrite (handler_admitted v env request Hadm).
    destruct (process_payload_answers env (default "" (GEMINI_API_KEY env))
                request (gate_trace v env request)) as (resp & t & -> & _).
    cbn [snd]. apply elem_of_app. right. apply elem_of_cons. left. reflexivity.
Qed.

Lemma body_read_iff_witness :
  admitted Secured (Sample.server (Val Sample.user) [])
    (Sample.post Sample.hello) = true
  /\ ReadBody
     ∈ (handler_of Secured (Sample.server (Val Sample.user) [])
          (Sample.post Sample.hello) []).2.
Proof.
  split; [reflexivity|].
  apply (body_read_iff Secured (Sample.server (Val Sample.user) [])
           (Sample.post Sample.hello)).
  reflexivity.
Defined.

(** X7: what a request that is not admitted gets back does not depend on
    its body: the answer and the effects are the same whatever payload,
    valid or not, comes with it. *)
Theorem refusal_ignores_body (v : Variant) (env : Env) (request : Request)
    (b : JValue) :
  admitted v env request = false ->
  handler_of v env (mkRequest (method request) (headers request) b) []
  = handler_of v env request [].
Proof.
  intros Hadm. unfold admitted, configured in Hadm.
  destruct v; simpl in *.
  - unfold Generate.handler in *. cbn [method] in *.
    destruct (String.eqb (method request) "POST"); [|reflexivity].
    destruct (missing (GEMINI_API_KEY env)); [reflexivity | discriminate].
  - unfold Authenticated.handler in *. cbn [method] in *.
    destruct (String.eqb (method request) "POST"); [|reflexivity].
    destruct (missing (GEMINI_API_KEY env)); [reflexivity|].
    destruct (missing (FIREBASE_SERVICE_ACCOUNT_KEY env)); [reflexivity|].
    destruct (Authenticated.admin_apps_length env =? 0)%nat; [reflexivity|].
    cbn [negb andb orb] in *. rewrite !bind_run.
    change (Authenticated.token_gate env
              (mkRequest (method request) (headers request) b))
      with (Authenticated.token_gate env request).
    unfold verified in Hadm.
    destruct (bearer request) as [tok|] eqn:Hb.
    + rewrite (token_gate_bearer env request tok [] Hb).
      unfold accepts in Hadm.
      destruct (verifyIdToken env tok) as [d|e]; [|reflexivity].
      assert (negb (truthy d) || Authenticated.is_null (prop d "uid") = true)
        as -> by (destruct (truthy d), (Authenticated.is_null (prop d "uid"));
                  simpl in *; congruence).
      reflexivity.
    + rewrite (token_gate_no_bearer env request [] Hb). reflexivity.
Qed.

Lemma refusal_ignores_body_witness :
  admitted Secured (Sample.server (Throw Sample.expired) [])
    (Sample.post Sample.hello) = false
  /\ handler_of Secured (Sample.server (Throw Sample.expired) [])
       (Sample.post (JStr "not a payload")) []
     = handler_of Secured (Sample.server (Throw Sample.expired) [])
         (Sample.post Sample.hello) [].
Proof.
  split; [reflexivity|].
  apply (refusal_ignores_body Secured
           (Sample.server (Throw Sample.expired) [])
           (Sample.post Sample.hello) (JStr "not a payload")).
  reflexivity.
Defined.

(** ** The token check in front of the open handler *)

Lemma framed_ret {A : Type} (a : A) : framed (mret a : M A).
Proof. intros w0 w _. reflexivity. Qed.

Lemma framed_throw {A : Type} (e : Exn) : framed (throw e : M A).
Proof. intros w0 w _. reflexivity. Qed.

Lemma framed_emit (ev : Event) : framed (emit ev).
Proof.
  intros w0 w _. unfold emit. cbn [fst snd]. rewrite app_assoc. reflexivity.
Qed.

Lemma framed_fetch (env : Env) (req : FetchRequest) : framed (fetch env req).
Proof.
  intros w0 w H0. unfold fetch. cbn [fst snd].
  rewrite count_fetch_app, H0, app_assoc. reflexivity.
Qed.

Lemma framed_bind {A B : Type} (m : M A) (f : A -> M B) :
  framed m -> (forall a, framed (f a)) -> framed (m ≫= f).
Proof.
  intros Hm Hf w0 w H0. rewrite !bind_run, (Hm w0 w H0).
  destruct (m w) as [[a|e] w']; cbn [fst snd]; [|reflexivity].
  apply Hf. exact H0.
Qed.

Lemma framed_try_catch {A : Type} (m : M A) (h : Exn -> M A) :
  framed m -> (forall e, framed (h e)) -> framed (try_catch m h).
Proof.
  intros Hm Hh w0 w H0. unfold try_catch. rewrite (Hm w0 w H0).
  destruct (m w) as [[a|e] w']; cbn [fst snd]; [reflexivity|].
  apply Hh. exact H0.
Qed.

Lemma framed_attempts (env : Env) (req : FetchRequest) (fuel : nat) :
  forall attempt last, framed (attempts env req fuel attempt last).
Proof.
  induction fuel as [|fuel IH]; intros attempt last; cbn [attempts].
  - apply framed_ret.
  - apply framed_bind; [apply framed_fetch|]. intros r.
    destruct (ok r || (attempt =? maxRetries - 1)%nat); [apply framed_ret|].
    apply framed_bind; [apply framed_emit|]. intros _. apply IH.
Qed.

Lemma framed_translate (g : option FetchResponse) : framed (translate g).
Proof.
  unfold translate. apply framed_bind.
  - destruct g as [r|]; simpl; [|apply framed_throw].
    destruct (f_parsed r); [apply framed_ret | apply framed_throw].
  - intros result. destruct g as [r|]; [|apply framed_throw].
    destruct (negb (ok r)).
    + apply framed_bind; [apply framed_emit|]. intros _. apply framed_ret.
    + apply framed_bind.
      * unfold extract_text. destruct (nullish result);
          [apply framed_throw | apply framed_ret].
      * intros text. destruct (negb (truthy text)); apply framed_ret.
Qed.

Lemma framed_process_payload (env : Env) (apiKey : string) (request : Request) :
  framed (process_payload env apiKey request).
Proof.
  unfold process_payload. apply framed_bind; [apply framed_emit|]. intros _.
  cbv zeta. apply framed_bind.
  { unfold destructure.
    destruct (nullish _); [apply framed_throw | apply framed_ret]. }
  intros [parts systemInstruction].
  destruct (negb (truthy parts) || negb (isArray parts)); [apply framed_ret|].
  apply framed_try_catch.
  - apply framed_bind; [apply framed_attempts|]. intros g.
    apply framed_translate.
  - intros e. unfold on_fetch_error.
    apply framed_bind; [apply framed_emit|]. intros _. apply framed_ret.
Qed.

(** X8: for a request it admits, the authenticated handler is the open
    handler behind one successful verification: the response is the one
    the open handler gives, and so are the effects, after the verification
    event. *)
Theorem gate_transparent (env : Env) (request : Request) :
  admitted Secured env request = true ->
  Authenticated.handler env request []
  = ((Generate.handler env request []).1,
     gate_trace Secured env request ++ (Generate.handler env request []).2).
Proof.
  intros Hadm.
  assert (admitted Open env request = true) as Hopen.
  { unfold admitted, configured in *.
    apply andb_true_iff in Hadm as [Hadm _].
    apply andb_true_iff in Hadm as [Hm Hc].
    apply andb_true_iff in Hc as [Hk _].
    rewrite Hm, Hk. reflexivity. }
  pose proof (handler_admitted Secured env request Hadm) as Hs.
  pose proof (handler_admitted Open env request Hopen) as Ho.
  change (handler_of Secured env request)
    with (Authenticated.handler env request) in Hs.
  change (handler_of Open env request)
    with (Generate.handler env request) in Ho.
  rewrite Hs, Ho.
  change (gate_trace Open env request) with (@nil Event).
  rewrite <- (framed_process_payload env _ request
                (gate_trace Secured env request) []
                (count_fetch_gate Secured env request)).
  rewrite app_nil_r. reflexivity.
Qed.

Lemma gate_transparent_witness :
  admitted Secured (Sample.server (Val Sample.user) Sample.third_time_lucky)
    (Sample.post Sample.hello) = true
  /\ Authenticated.handler
       (Sample.server (Val Sample.user) Sample.third_time_lucky)
       (Sample.post Sample.hello) []
     = ((Generate.handler
           (Sample.server (Val Sample.user) Sample.third_time_lucky)
           (Sample.post Sample.hello) []).1,
        [VerifyIdToken (JStr "abc") (Val Sample.user)]
          ++ (Generate.handler
                (Sample.server (Val Sample.user) Sample.third_time_lucky)
                (Sample.post Sample.hello) []).2).
Proof.
  split; [reflexivity|].
  apply (gate_transparent
           (Sample.server (Val Sample.user) Sample.third_time_lucky)
           (Sample.post Sample.hello)).
  reflexivity.
Defined.

(** ** The shape of every run *)

Lemma elapsed_gate_events (env : Env) (t : World) :
  Forall (is_gate_event env) t -> elapsed t = 0.
Proof.
  induction 1 as [|ev t Hev _ IH]; [reflexivity|].
  destruct Hev as [[args ->]|(tok & -> & _)]; exact IH.
Qed.

Lemma attempts_step (env : Env) (req : FetchRequest) (fuel attempt : nat)
    (last : option FetchResponse) :
  attempts env req (S fuel) attempt last
  = (fetch env req
       ≫= fun r =>
            if ok r || (attempt =? maxRetries - 1)%nat then mret (Some r)
            else
              sleep (delay * 2 ^ Z.of_nat attempt)
                ≫= fun _ => attempts env req fuel (S attempt) (Some r)).
Proof. reflexivity. Qed.

(** Whatever the upstream does, what the loop adds to the trace is a run
    of failed attempts, each with its wait, and one last call: a wait is
    always followed by a call. *)
Lemma attempts_schedule (env : Env) (req : FetchRequest) (fuel : nat) :
  forall (attempt : nat) (last : option FetchResponse) (w : World),
    (attempt + S fuel = maxRetries)%nat ->
    exists k,
      (k <= fuel)%nat
      /\ (attempts env req (S fuel) attempt last w).2
         = w ++ retries req attempt k ++ [Fetch req].
Proof.
  induction fuel as [|fuel IH]; intros attempt last w Hsum;
    rewrite attempts_step, bind_run, fetch_run;
    destruct (upstream env (count_fetch w) req) as [r|e];
    try (exists 0%nat; split; [lia | reflexivity]).
  - assert ((attempt =? maxRetries - 1)%nat = true) as ->
      by (apply Nat.eqb_eq; lia).
    rewrite orb_true_r. exists 0%nat. split; [lia | reflexivity].
  - destruct (ok r || (attempt =? maxRetries - 1)%nat);
      [exists 0%nat; split; [lia | reflexivity]|].
    rewrite bind_run. unfold sleep, emit at 1.
    destruct (IH (S attempt) (Some r)
                ((w ++ [Fetch req])
                   ++ [SetTimeout (delay * 2 ^ Z.of_nat attempt)]))
      as (k & Hk & Hrun); [lia|].
    exists (S k). split; [lia|].
    rewrite Hrun. cbn [retries]. rewrite <- !app_assoc. reflexivity.
Qed.

(** The run of a valid payload: the body is read, the loop makes its
    calls, and the translator or the [catch] block answers, writing at
    most to the console. *)
Lemma process_payload_schedule (env : Env) (apiKey : string)
    (request : Request) (w : World) :
  isArray (prop (body request) "parts") = true ->
  exists k resp t,
    (k < 3)%nat
    /\ process_payload env apiKey request w
       = (Val resp,
          w ++ ReadBody :: retries (outbound apiKey request) 0 k
            ++ Fetch (outbound apiKey request) :: t)
    /\ Forall is_log t.
Proof.
  intros Harr. rewrite (process_payload_valid env apiKey request w Harr).
  unfold try_catch at 1. rewrite bind_run.
  destruct (attempts_schedule env (outbound apiKey request) 2 0 None
              (w ++ [ReadBody])) as (k & Hk & Hrun); [reflexivity|].
  change (S 2) with maxRetries in Hrun.
  exists k.
  destruct (attempts env (outbound apiKey request) maxRetries 0 None
              (w ++ [ReadBody])) as [[g|e] w']; cbn [snd] in Hrun; subst w'.
  - destruct (translate_answers g
                ((w ++ [ReadBody]) ++ retries (outbound apiKey request) 0 k
                   ++ [Fetch (outbound apiKey request)]))
      as (resp & t & Hresp & Hlog).
    unfold try_catch in Hresp. rewrite Hresp.
    exists resp, t. split; [lia|]. split; [|exact Hlog].
    f_equal. rewrite <- !app_assoc. reflexivity.
  - rewrite on_fetch_error_run.
    eexists _, [_]. split; [lia|]. split.
    + f_equal. rewrite <- !app_assoc. reflexivity.
    + constructor; [eexists; reflexivity | constructor].
Qed.

Lemma logs_quiet (t : World) : Forall is_log t -> Forall is_quiet t.
Proof.
  intros H. eapply Forall_impl; [exact H|]. intros ev [args ->]. exact I.
Qed.

Lemma gate_events_quiet (env : Env) (t : World) :
  Forall (is_gate_event env) t -> Forall is_quiet t.
Proof.
  intros H. eapply Forall_impl; [exact H|].
  intros ev [[args ->]|(tok & -> & _)]; exact I.
Qed.

Lemma gate_trace_quiet (v : Variant) (env : Env) (request : Request) :
  Forall is_quiet (gate_trace v env request).
Proof.
  destruct v; simpl; [constructor|].
  destruct (bearer request); repeat constructor.
Qed.

Lemma quiet_no_timer (t pre post : World) (ms : Z) :
  Forall is_quiet t -> t <> pre ++ SetTimeout ms :: post.
Proof.
  intros Hq ->. apply Forall_app in Hq as [_ Hq].
  apply Forall_cons in Hq as [Hq _]. exact Hq.
Qed.

(** In a run of failed attempts ended by one more call, every wait is
    followed at once by a call. *)
Lemma retries_timer_then_fetch (req : FetchRequest) (k : nat) :
  forall (attempt : nat) (tail pre post : World) (ms : Z),
    Forall is_quiet tail ->
    retries req attempt k ++ Fetch req :: tail = pre ++ SetTimeout ms :: post ->
    exists post', post = Fetch req :: post'.
Proof.
  induction k as [|k IH]; intros attempt tail pre post ms Hq Heq.
  - destruct pre as [|ev pre]; [discriminate Heq|].
    injection Heq as _ Heq. destruct (quiet_no_timer _ _ _ _ Hq Heq).
  - cbn [retries] in Heq.
    destruct pre as [|ev pre]; [discriminate Heq|].
    injection Heq as _ Heq.
    destruct pre as [|ev' pre].
    + injection Heq as _ <-. destruct k; simpl; eauto.
    + injection Heq as _ Heq. exact (IH _ _ _ _ _ Hq Heq).
Qed.

Lemma quiet_prefix_timer (front rest pre post : World) (ms : Z) :
  Forall is_quiet front ->
  front ++ rest = pre ++ SetTimeout ms :: post ->
  exists pre', rest = pre' ++ SetTimeout ms :: post.
Proof.
  revert pre. induction front as [|ev front IH]; intros pre Hq Heq.
  - exists pre. exact Heq.
  - apply Forall_cons in Hq as [Hev Hq].
    destruct pre as [|ev0 pre].
    + injection Heq as -> _. destruct Hev.
    + injection Heq as _ Heq. exact (IH pre Hq Heq).
Qed.

(** X9: in every run the time spent waiting is decided by the number of
    upstream calls alone: nothing for no call or one, 1000 for two, 3000
    for three; no request waits more than [1000 + 2000] in all. The calls
    and the waits come in one block, a wait after each call but the last:
    every wait is followed at once by a call, and after the last call
    there is no wait. *)
Theorem backoff_schedule (v : Variant) (env : Env) (request : Request) :
  elapsed (handler_of v env request []).2
  = 1000 * (2 ^ Z.of_nat (count_fetch (handler_of v env request []).2 - 1) - 1)
  /\ 0 <= elapsed (handler_of v env request []).2 <= 1000 + 2000
  /\ (Forall is_quiet (handler_of v env request []).2
      \/ exists k pre post,
           (k < 3)%nat
           /\ (handler_of v env request []).2
              = pre ++ retries (request_for env request) 0 k
                  ++ Fetch (request_for env request) :: post
           /\ Forall is_quiet pre
           /\ Forall is_quiet post)
  /\ (forall pre ms post,
        (handler_of v env request []).2 = pre ++ SetTimeout ms :: post ->
        exists post', post = Fetch (request_for env request) :: post').
Proof.
  assert (forall t : World,
            (count_fetch t = 0%nat /\ elapsed t = 0)
            \/ (exists k, (k < 3)%nat /\ count_fetch t = S k
                          /\ elapsed t = 1000 * (2 ^ Z.of_nat k - 1)) ->
            elapsed t = 1000 * (2 ^ Z.of_nat (count_fetch t - 1) - 1)
            /\ 0 <= elapsed t <= 1000 + 2000) as Hsum.
  { intros t [[-> ->]|(k & Hk & -> & ->)]; [simpl; lia|].
    replace (S k - 1)%nat with k by lia. split; [reflexivity|].
    destruct k as [|[|[|k]]]; simpl; lia. }
  assert (forall t : World,
            Forall is_quiet t ->
            forall pre ms post,
              t = pre ++ SetTimeout ms :: post ->
              exists post', post = Fetch (request_for env request) :: post')
    as Hnone.
  { intros t Hq pre ms post Heq. destruct (quiet_no_timer _ _ _ _ Hq Heq). }
  destruct (admitted v env request) eqn:Hadm.
  - rewrite (handler_admitted v env request Hadm).
    destruct (isArray (prop (body request) "parts")) eqn:Harr.
    + destruct (process_payload_schedule env (default "" (GEMINI_API_KEY env))
                  request (gate_trace v env request) Harr)
        as (k & resp & t & Hk & -> & Hlog).
      cbn [snd].
      change (outbound (default "" (GEMINI_API_KEY env)) request)
        with (request_for env request).
      assert (Forall is_quiet (gate_trace v env request ++ [ReadBody])) as Hpre
        by (apply Forall_app; split;
            [apply gate_trace_quiet | repeat constructor]).
      replace (gate_trace v env request
                 ++ ReadBody :: retries (request_for env request) 0 k
                 ++ Fetch (request_for env request) :: t)
        with ((gate_trace v env request ++ [ReadBody])
                ++ retries (request_for env request) 0 k
                ++ Fetch (request_for env request) :: t)
        by (rewrite <- app_assoc; reflexivity).
      split; [|split]; [apply Hsum | apply Hsum | split].
      1,2: right; exists k; split; [exact Hk|];
        rewrite !count_fetch_app, !elapsed_app, count_fetch_gate, elapsed_gate,
          count_fetch_retries, elapsed_retries;
        cbn [count_fetch elapsed];
        rewrite (count_fetch_logs t Hlog), (elapsed_logs t Hlog);
        unfold delay; simpl; split; lia.
      * right. exists k, (gate_trace v env request ++ [ReadBody]), t.
        split; [exact Hk|]. split; [reflexivity|].
        split; [exact Hpre | apply logs_quiet; exact Hlog].
      * intros pre ms post Heq.
        apply (quiet_prefix_timer _ _ _ _ _ Hpre) in Heq as [pre' Heq].
        exact (retries_timer_then_fetch _ _ _ _ _ _ _
                 (logs_quiet t Hlog) Heq).
    + rewrite (process_payload_reject env _ request _ Harr). cbn [snd].
      assert (Forall is_quiet (gate_trace v env request ++ [ReadBody])) as Hq
        by (apply Forall_app; split;
            [apply gate_trace_quiet | repeat constructor]).
      split; [|split]; [apply Hsum | apply Hsum | split].
      1,2: left; rewrite count_fetch_app, elapsed_app, count_fetch_gate,
        elapsed_gate; split; reflexivity.
      * left. exact Hq.
      * apply Hnone. exact Hq.
  - destruct (handler_refused v env request Hadm) as (resp & t & -> & Hall).
    cbn [snd].
    split; [|split]; [apply Hsum | apply Hsum | split].
    1,2: left; rewrite (count_fetch_gate_events env t Hall),
      (elapsed_gate_events env t Hall); split; reflexivity.
    + left. apply (gate_events_quiet env). exact Hall.
    + apply Hnone. apply (gate_events_quiet env). exact Hall.
Qed.

Lemma backoff_schedule_witness :
  (handler_of Open (Sample.server (Val Sample.user) Sample.third_time_lucky)
     (Sample.post Sample.hello) []).2
  = [ReadBody; Fetch (outbound "k" (Sample.post Sample.hello))]
      ++ SetTimeout 1000
      :: [Fetch (outbound "k" (Sample.post Sample.hello));
          SetTimeout 2000;
          Fetch (outbound "k" (Sample.post Sample.hello))]
  /\ exists post',
       [Fetch (outbound "k" (Sample.post Sample.hello));
        SetTimeout 2000;
        Fetch (outbound "k" (Sample.post Sample.hello))]
       = Fetch (request_for
                  (Sample.server (Val Sample.user) Sample.third_time_lucky)
                  (Sample.post Sample.hello)) :: post'.
Proof.
  split; [reflexivity|].
  destruct (backoff_schedule Open
              (Sample.server (Val Sample.user) Sample.third_time_lucky)
              (Sample.post Sample.hello)) as (_ & _ & _ & Hnext).
  apply (Hnext [ReadBody; Fetch (outbound "k" (Sample.post Sample.hello))]
           1000).
  reflexivity.
Defined.

(** ** The contract of the responses *)

Lemma try_catch_bind {A B : Type} (m : M A) (f : A -> M B) (h : Exn -> M B)
    (w : World) :
  try_catch (m ≫= f) h w
  = match m w with
    | (Val a, w') => try_catch (f a) h w'
    | (Throw e, w') => h e w'
    end.
Proof.
  unfold try_catch. rewrite bind_run.
  destruct (m w) as [[a|e] w']; reflexivity.
Qed.

(** The response the loop ends with is an answer of the upstream. *)
Lemma attempts_result (env : Env) (req : FetchRequest) (fuel : nat) :
  forall (attempt : nat) (last g : option FetchResponse) (w w' : World),
    (forall r, last = Some r -> exists n, upstream env n req = Val r) ->
    attempts env req fuel attempt last w = (Val g, w') ->
    forall r, g = Some r -> exists n, upstream env n req = Val r.
Proof.
  induction fuel as [|fuel IH]; intros attempt last g w w' Hlast Hrun.
  - injection Hrun as <- _. exact Hlast.
  - rewrite attempts_step, bind_run, fetch_run in Hrun.
    destruct (upstream env (count_fetch w) req) as [r0|e] eqn:Hup;
      [|discriminate].
    destruct (ok r0 || (attempt =? maxRetries - 1)%nat).
    + injection Hrun as <- _. intros r [= <-]. eauto.
    + rewrite bind_run in Hrun. unfold sleep, emit at 1 in Hrun.
      apply (IH _ _ _ _ _ (fun r (H : Some r0 = Some r) =>
                             ex_intro _ (count_fetch w)
                               (eq_trans Hup (f_equal Val (Some_inj _ _ H))))
               Hrun).
Qed.

Lemma non2xx_status (r : FetchResponse) :
  ok r = false -> f_status r < 200 \/ 299 < f_status r.
Proof.
  unfold ok. intros H. apply andb_false_iff in H as [H|H];
    apply Z.leb_gt in H; lia.
Qed.

Lemma failure_500 (msg : string) : is_failure (mkResponse 500 (error_body msg)).
Proof. split; [simpl; lia | exists msg; reflexivity]. Qed.

Lemma refusals_fail : Forall is_failure refusals.
Proof.
  repeat constructor; simpl; try lia; eexists; reflexivity.
Qed.

(** What payload processing answers. *)
Lemma process_payload_contract (env : Env) (apiKey : string)
    (request : Request) (w : World) :
  exists resp t,
    process_payload env apiKey request w = (Val resp, t)
    /\ (is_success env (outbound apiKey request) resp \/ is_failure resp).
Proof.
  destruct (isArray (prop (body request) "parts")) eqn:Harr.
  - rewrite (process_payload_valid env apiKey request w Harr), try_catch_bind.
    destruct (attempts env (outbound apiKey request) maxRetries 0 None
                (w ++ [ReadBody])) as [[[r|]|e] w'] eqn:Hrun.
    + destruct (attempts_result env _ _ _ _ _ _ _
                  (fun r (H : None = Some r) => match H with end) Hrun
                  r eq_refl) as [n Hn].
      destruct (f_parsed r) as [result|] eqn:Hp.
      * destruct (ok r) eqn:Hok.
        -- destruct (nullish result) eqn:Hnull.
           ++ destruct (translate_2xx_null r result w' Hok Hp Hnull) as [e ->].
              do 2 eexists. split; [reflexivity|]. right. apply failure_500.
           ++ rewrite (translate_2xx r result w' Hok Hp Hnull).
              do 2 eexists. split; [reflexivity|].
              destruct (truthy (text_path result)) eqn:Ht;
                [|right; apply failure_500].
              left. split; [reflexivity|].
              exists n, r, result. repeat split; assumption.
        -- rewrite (translate_non2xx r result w' Hok Hp).
           do 2 eexists. split; [reflexivity|]. right.
           split; [exact (non2xx_status r Hok) | eexists; reflexivity].
      * destruct (translate_unparsed r w' Hp) as [e ->].
        do 2 eexists. split; [reflexivity|]. right. apply failure_500.
    + do 2 eexists. split; [reflexivity|]. right. apply failure_500.
    + rewrite on_fetch_error_run.
      do 2 eexists. split; [reflexivity|]. right. apply failure_500.
  - rewrite (process_payload_reject env apiKey request w Harr).
    do 2 eexists. split; [reflexivity|]. right.
    split; [simpl; lia | eexists; reflexivity].
Qed.

(** What the gates answer. *)
Lemma handler_refused_response (v : Variant) (env : Env) (request : Request) :
  admitted v env request = false ->
  exists resp t,
    handler_of v env request [] = (Val resp, t) /\ resp ∈ refusals.
Proof.
  unfold admitted, configured, refusals. intros H.
  destruct v; simpl.
  - unfold Generate.handler.
    destruct (String.eqb (method request) "POST"); cbn [negb].
    + destruct (missing (GEMINI_API_KEY env)); [|discriminate].
      do 2 eexists. split; [reflexivity|].
      rewrite list_elem_of_In. simpl. tauto.
    + do 2 eexists. split; [reflexivity|].
      rewrite list_elem_of_In. simpl. tauto.
  - unfold Authenticated.handler.
    destruct (String.eqb (method request) "POST"); cbn [negb];
      [|do 2 eexists; split; [reflexivity|];
        rewrite list_elem_of_In; simpl; tauto].
    destruct (missing (GEMINI_API_KEY env)); cbn [negb andb] in *;
      [do 2 eexists; split; [reflexivity|];
       rewrite list_elem_of_In; simpl; tauto|].
    destruct (missing (FIREBASE_SERVICE_ACCOUNT_KEY env));
      cbn [negb andb orb] in *;
      [do 2 eexists; split; [reflexivity|];
       rewrite list_elem_of_In; simpl; tauto|].
    destruct (Authenticated.admin_apps_length env =? 0)%nat;
      cbn [negb andb] in *;
      [do 2 eexists; split; [reflexivity|];
       rewrite list_elem_of_In; simpl; tauto|].
    unfold verified in H. rewrite bind_run.
    destruct (bearer request) as [t|] eqn:Hb.
    + rewrite (token_gate_bearer env request t [] Hb).
      unfold accepts in H.
      destruct (verifyIdToken env t) as [d|e].
      * assert (negb (truthy d) || Authenticated.is_null (prop d "uid") = true)
          as -> by (destruct (truthy d), (Authenticated.is_null (prop d "uid"));
                    simpl in *; congruence).
        do 2 eexists. split; [reflexivity|].
        rewrite list_elem_of_In. simpl. tauto.
      * do 2 eexists. split; [reflexivity|].
        rewrite list_elem_of_In. simpl. tauto.
    + rewrite (token_gate_no_bearer env request [] Hb).
      do 2 eexists. split; [reflexivity|].
      rewrite list_elem_of_In. simpl. tauto.
Qed.

(** X10: every request, to either handler, gets one of two kinds of
    response. Either status 200 with [{"text": t}], where [t] is truthy and
    is the text found in the body of a 2xx answer the upstream gave to
    this request; or a status outside 200-299 with a body whose [error]
    field is a message. In particular a status passed on from the upstream
    is never a 2xx one. *)
Theorem response_contract (v : Variant) (env : Env) (request : Request) :
  exists resp t,
    handler_of v env request [] = (Val resp, t)
    /\ (is_success env (request_for env request) resp \/ is_failure resp).
Proof.
  destruct (admitted v env request) eqn:Hadm.
  - rewrite (handler_admitted v env request Hadm).
    apply process_payload_contract.
  - destruct (handler_refused_response v env request Hadm)
      as (resp & t & Hrun & Hin).
    exists resp, t. split; [exact Hrun|]. right.
    pose proof refusals_fail as Hall. rewrite Forall_forall in Hall.
    exact (Hall resp Hin).
Qed.

(** X11: the status and the body of the upstream's deciding answer reach
    the caller only when that body is JSON. When it does not parse,
    whatever its status, or when it is the JSON value [null] under a 2xx
    status, the caller gets 500 with
    [{"error":"Internal server error during fetch."}]. *)
Theorem unreadable_answer_is_500 (v : Variant) (env : Env) (request : Request)
    (fails : list FetchResponse) (r : FetchResponse) :
  admitted v env request = true ->
  isArray (prop (body request) "parts") = true ->
  answered env (request_for env request) 0 (fails ++ [r]) ->
  Forall (fun x => ok x = false) fails ->
  (length fails < 3)%nat ->
  ok r = true \/ length fails = 2%nat ->
  f_parsed r = None
  \/ (ok r = true
      /\ exists result, f_parsed r = Some result /\ nullish result = true) ->
  (handler_of v env request []).1
  = Val (mkResponse 500 (error_body "Internal server error during fetch."))
  /\ count_fetch (handler_of v env request []).2 = S (length fails).
Proof.
  intros Hadm Harr Hans Hfail Hlen Hend Hbody.
  rewrite (handler_settle v env request fails r Hadm Harr Hans Hfail Hlen Hend).
  set (w := gate_trace v env request ++ _).
  assert (count_fetch w = S (length fails)) as Hcount.
  { unfold w. rewrite count_fetch_app, count_fetch_gate. simpl.
    rewrite count_fetch_app, count_fetch_retries. simpl. lia. }
  destruct Hbody as [Hp|(Hok & result & Hp & Hnull)].
  - destruct (translate_unparsed r w Hp) as [e ->]. cbn [fst snd].
    split; [reflexivity|]. rewrite count_fetch_app, Hcount. simpl. lia.
  - destruct (translate_2xx_null r result w Hok Hp Hnull) as [e ->].
    cbn [fst snd].
    split; [reflexivity|]. rewrite count_fetch_app, Hcount. simpl. lia.
Qed.

Lemma unreadable_answer_is_500_witness :
  admitted Open (Sample.server (Val Sample.user) Sample.gateway_errors)
    (Sample.post Sample.hello) = true
  /\ f_status Sample.bad_gateway = 502
  /\ f_parsed Sample.bad_gateway = None
  /\ (handler_of Open (Sample.server (Val Sample.user) Sample.gateway_errors)
        (Sample.post Sample.hello) []).1
     = Val (mkResponse 500 (error_body "Internal server error during fetch.")).
Proof.
  split; [reflexivity|]. split; [reflexivity|]. split; [reflexivity|].
  apply (unreadable_answer_is_500 Open
           (Sample.server (Val Sample.user) Sample.gateway_errors)
           (Sample.post Sample.hello)
           [Sample.bad_gateway; Sample.bad_gateway] Sample.bad_gateway);
    try reflexivity.
  - simpl. repeat split.
  - repeat constructor.
  - simpl. lia.
  - right. reflexivity.
  - left. reflexivity.
Defined.

(** ** When the identity service is asked *)

Lemma is_call_not_verify (req : FetchRequest) (t : World) (tok : JValue)
    (o : Outcome JValue) :
  Forall (is_call req) t -> VerifyIdToken tok o ∉ t.
Proof.
  intros Hall Hin. rewrite Forall_forall in Hall.
  destruct (Hall _ Hin) as [H|[[ms H]|[args H]]]; discriminate.
Qed.

(** X12: the authenticated handler asks the identity service to verify a
    token exactly for the POST requests that reach a configured server
    with an [Authorization] header beginning with ['Bearer ']; what it
    submits is the token of that header, and what is recorded is the
    service's answer. A request without such a header never reaches the
    service. *)
Theorem verification_attempted_iff (env : Env) (request : Request)
    (tok : JValue) (o : Outcome JValue) :
  VerifyIdToken tok o ∈ (Authenticated.handler env request []).2
  <-> method request = "POST"
      /\ configured Secured env = true
      /\ bearer request = Some tok
      /\ o = verifyIdToken env tok.
Proof.
  split.
  - intros Hin.
    destruct (String.eqb (method request) "POST") eqn:Hm;
      [|unfold Authenticated.handler in Hin; rewrite Hm in Hin;
        inversion Hin].
    apply String.eqb_eq in Hm.
    destruct (configured Secured env) eqn:Hc.
    + rewrite (secured_configured env request Hm Hc), bind_run in Hin.
      destruct (bearer request) as [t|] eqn:Hb.
      * rewrite (token_gate_bearer env request t [] Hb) in Hin.
        assert (VerifyIdToken tok o = VerifyIdToken t (verifyIdToken env t))
          as Heq.
        { destruct (verifyIdToken env t) as [d|e].
          - destruct (negb (truthy d) || Authenticated.is_null (prop d "uid")).
            + cbn [snd] in Hin. apply list_elem_of_singleton in Hin.
              exact Hin.
            + destruct (process_payload_answers env
                          (default "" (GEMINI_API_KEY env)) request
                          ([] ++ [VerifyIdToken t (Val d)]))
                as (resp & t' & Hrun & Hall & _).
              rewrite Hrun in Hin. cbn [snd] in Hin.
              apply elem_of_app in Hin as [Hin|Hin];
                [apply list_elem_of_singleton in Hin; exact Hin|].
              apply elem_of_cons in Hin as [Hin|Hin]; [discriminate|].
              destruct (is_call_not_verify _ t' tok o Hall Hin).
          - cbn [snd] in Hin.
            apply elem_of_cons in Hin as [Hin|Hin]; [exact Hin|].
            apply list_elem_of_singleton in Hin. discriminate. }
        injection Heq as -> ->. repeat split; assumption.
      * rewrite (token_gate_no_bearer env request [] Hb) in Hin.
        inversion Hin.
    + unfold configured in Hc. unfold Authenticated.handler in Hin.
      apply String.eqb_eq in Hm. rewrite Hm in Hin. cbn [negb] in Hin.
      destruct (missing (GEMINI_API_KEY env)); [inversion Hin|].
      cbn [negb andb] in Hc.
      assert (missing (FIREBASE_SERVICE_ACCOUNT_KEY env)
              || (Authenticated.admin_apps_length env =? 0)%nat = true) as Hf
        by (destruct (missing (FIREBASE_SERVICE_ACCOUNT_KEY env)),
              (Authenticated.admin_apps_length env =? 0)%nat;
            simpl in *; congruence).
      rewrite Hf in Hin. inversion Hin.
  - intros (Hm & Hc & Hb & ->).
    rewrite (secured_configured env request Hm Hc), bind_run.
    rewrite (token_gate_bearer env request tok [] Hb).
    destruct (verifyIdToken env tok) as [d|e].
    + destruct (negb (truthy d) || Authenticated.is_null (prop d "uid")).
      * cbn [snd]. apply elem_of_cons. left. reflexivity.
      * destruct (process_payload_answers env
                    (default "" (GEMINI_API_KEY env)) request
                    ([] ++ [VerifyIdToken tok (Val d)]))
          as (resp & t' & -> & _).
        cbn [snd]. apply elem_of_app. left.
        apply elem_of_cons. left. reflexivity.
    + cbn [snd]. apply elem_of_cons. left. reflexivity.
Qed.

Lemma verification_attempted_iff_witness :
  bearer (Sample.post Sample.hello) = Some (JStr "abc")
  /\ VerifyIdToken (JStr "abc") (Throw Sample.expired)
     ∈ (Authenticated.handler (Sample.server (Throw Sample.expired) [])
          (Sample.post Sample.hello) []).2.
Proof.
  split; [reflexivity|].
  apply (verification_attempted_iff (Sample.server (Throw Sample.expired) [])
           (Sample.post Sample.hello)).
  repeat split.
Defined.

(** X13: the only decoded tokens the handler turns away are the falsy ones
    and those whose [uid] is [null]. Any other value verification returns,
    a token with no [uid] at all included, opens the way to payload
    processing, which then runs as it does in the open handler. *)
Theorem decoded_token_accepted (env : Env) (request : Request)
    (tok d : JValue) :
  method request = "POST" ->
  configured Secured env = true ->
  bearer request = Some tok ->
  verifyIdToken env tok = Val d ->
  truthy d = true ->
  prop d "uid" <> JNull ->
  Authenticated.handler env request []
  = process_payload env (default "" (GEMINI_API_KEY env)) request
      [VerifyIdToken tok (Val d)].
Proof.
  intros Hm Hc Hb Hv Ht Hu.
  rewrite (secured_configured env request Hm Hc), bind_run.
  rewrite (token_gate_bearer env request tok [] Hb), Hv, Ht.
  destruct (prop d "uid"); try reflexivity. contradiction.
Qed.

Lemma decoded_token_accepted_witness :
  prop Sample.anonymous "uid" = JUndefined
  /\ Authenticated.handler (Sample.server (Val Sample.anonymous) [])
       (Sample.post Sample.empty_parts) []
     = process_payload (Sample.server (Val Sample.anonymous) []) "k"
         (Sample.post Sample.empty_parts)
         [VerifyIdToken (JStr "abc") (Val Sample.anonymous)].
Proof.
  split; [reflexivity|].
  apply (decoded_token_accepted (Sample.server (Val Sample.anonymous) [])
           (Sample.post Sample.empty_parts) (JStr "abc") Sample.anonymous);
    try reflexivity.
  discriminate.
Defined.
